(** * ModelViewer: bounding-box normalization and session lifecycle

    A shallow embedding of [src/lib/ModelViewer.svelte].  The component is a
    sequence of calls into the Babylon.js engine wrapped in one [try]/[catch];
    it is modelled as a state-and-exception monad over the component's
    variables ([engine], [scene], [camera], [handleResize]), the console and
    the window's resize listeners.

    Conventions.
    - JavaScript numbers are modelled as exact rationals ([Q]); equalities
      between computed numbers are stated with [==].  Rounding, overflow and
      NaN are outside that model: statements that give the value of a
      computed number hold of the program's arithmetic carried out exactly.
      Module [Ieee] replays the arithmetic of the normalization pass on
      binary64 numbers, to show where the two part.
    - The engine is an external library.  Module [Babylon] models the part of
      its interface the component consumes.  What the engine decides on its
      own (whether a call throws, what the loader returns, how [zoomOn]
      re-frames the camera, the default clip planes of a new camera) is a
      field of the environment [Env].
    - The [await] on the loader is modelled as an atomic step. *)

From Stdlib Require Import QArith Qminmax Lqa.
From Stdlib Require Import List String Bool Arith Lia DecimalString DecimalNat.
From Stdlib Require PrimFloat.
Import ListNotations.
Open Scope Q_scope.

(* ================================================================== *)
(** * The engine interface *)
(* ================================================================== *)

Module Babylon.

(** ** Vectors and colours *)

Record Vector3 : Type := mkVector3 { x : Q; y : Q; z : Q }.

Definition veq (a b : Vector3) : Prop :=
  x a == x b /\ y a == y b /\ z a == z b.

Infix "=v=" := veq (at level 70, no associativity).

(** [Vector3.Zero()] *)
Definition Zero : Vector3 := mkVector3 0 0 0.

(** [Vector3.One()], the scaling of a new node *)
Definition One : Vector3 := mkVector3 1 1 1.

(** [Vector3.Center(a, b)]: the midpoint *)
Definition Center (a b : Vector3) : Vector3 :=
  mkVector3 ((x a + x b) / 2) ((y a + y b) / 2) ((z a + z b) / 2).

(** [a.subtract(b)] *)
Definition subtract (a b : Vector3) : Vector3 :=
  mkVector3 (x a - x b) (y a - y b) (z a - z b).

(** [a.scale(k)] *)
Definition scale (a : Vector3) (k : Q) : Vector3 :=
  mkVector3 (x a * k) (y a * k) (z a * k).

(** [Math.max(a, b, c)] *)
Definition Math_max3 (a b c : Q) : Q := Qmax (Qmax a b) c.

Record Color3 : Type := mkColor3 { r3 : Q; g3 : Q; b3 : Q }.
Record Color4 : Type := mkColor4 { r4 : Q; g4 : Q; b4 : Q; a4 : Q }.

(** [Number.MAX_VALUE] = 2^1024 - 2^971 *)
Definition MAX_VALUE : Q := inject_Z (2 ^ 1024 - 2 ^ 971).

(** ** Materials *)

Record StandardMaterial : Type := mkStandardMaterial {
  mat_name : string;
  diffuseColor : Color3;
  alpha : Q                      (* 1 = opaque *)
}.

(** [new StandardMaterial(name, scene)]: white and opaque until configured *)
Definition new_StandardMaterial (name : string) : StandardMaterial :=
  mkStandardMaterial name (mkColor3 1 1 1) 1.

Definition set_diffuseColor (c : Color3) (m : StandardMaterial) : StandardMaterial :=
  mkStandardMaterial (mat_name m) c (alpha m).

(** ** Nodes *)

(** A transform node without parent; only scaling and translation are used. *)
Record TransformNode : Type := mkTransformNode {
  node_name : string;
  scaling : Vector3;
  position : Vector3
}.

(** [new TransformNode(name, scene)] *)
Definition new_TransformNode (name : string) : TransformNode :=
  mkTransformNode name One Zero.

Definition set_scaling (v : Vector3) (n : TransformNode) : TransformNode :=
  mkTransformNode (node_name n) v (position n).

Definition set_position (v : Vector3) (n : TransformNode) : TransformNode :=
  mkTransformNode (node_name n) (scaling n) v.

(** A mesh.  [minimum]/[maximum] are the corners of its bounding box in the
    frame of its parent (the world frame when it has none); [parent] is an
    index into the scene's transform nodes. *)
Record AbstractMesh : Type := mkAbstractMesh {
  totalVertices : nat;
  enabled : bool;
  isVisible : bool;
  material : option StandardMaterial;
  parent : option nat;
  minimum : Vector3;
  maximum : Vector3
}.

Definition setEnabled (b : bool) (m : AbstractMesh) : AbstractMesh :=
  mkAbstractMesh (totalVertices m) b (isVisible m) (material m) (parent m)
                 (minimum m) (maximum m).

Definition set_isVisible (b : bool) (m : AbstractMesh) : AbstractMesh :=
  mkAbstractMesh (totalVertices m) (enabled m) b (material m) (parent m)
                 (minimum m) (maximum m).

Definition set_material (mt : StandardMaterial) (m : AbstractMesh) : AbstractMesh :=
  mkAbstractMesh (totalVertices m) (enabled m) (isVisible m) (Some mt) (parent m)
                 (minimum m) (maximum m).

(** [m.setParent(node, true, true)] towards a node that sits at the identity:
    the world transform is preserved, so the corners keep their coordinates. *)
Definition setParent (node : nat) (m : AbstractMesh) : AbstractMesh :=
  mkAbstractMesh (totalVertices m) (enabled m) (isVisible m) (material m) (Some node)
                 (minimum m) (maximum m).

(** [m.getTotalVertices() > 0] *)
Definition hasVertices (m : AbstractMesh) : bool := (0 <? totalVertices m)%nat.

(** ** Lights, engine, camera, scene *)

Record Light : Type := mkLight {
  light_name : string;
  hemispheric : bool;
  direction : Vector3;
  intensity : Q
}.

Definition set_intensity (i : Q) (l : Light) : Light :=
  mkLight (light_name l) (hemispheric l) (direction l) i.

Record Engine : Type := mkEngine {
  antialias : bool;
  preserveDrawingBuffer : bool;
  stencil : bool;
  renderLoop : bool;             (* a render callback is registered *)
  resizes : nat;                 (* calls to [resize] so far *)
  engine_disposed : bool
}.

(** Angles are kept in units of pi. *)
Record ArcRotateCamera : Type := mkArcRotateCamera {
  cam_name : string;
  alpha_pi : Q;
  beta_pi : Q;
  radius : Q;
  target : Vector3;
  controlAttached : bool;
  lowerRadiusLimit : option Q;   (* Nullable<number> *)
  upperRadiusLimit : option Q;
  wheelDeltaPercentage : option Q;
  panningSensibility : option Q; (* [None]: the engine's default *)
  useFramingBehavior : bool;
  minZ : Q;
  maxZ : Q
}.

Record Scene : Type := mkScene {
  clearColor : option Color4;    (* [None]: the engine's default *)
  activeCamera : option string;
  lights : list Light;
  meshes : list AbstractMesh;
  transformNodes : list TransformNode;
  scene_disposed : bool
}.

(** A nullable number used as an operand: [null] converts to 0. *)
Definition to_number (n : option Q) : Q :=
  match n with Some q => q | None => 0 end.

(** Property writes on the camera. *)
Definition set_radius (v : Q) (c : ArcRotateCamera) : ArcRotateCamera :=
  mkArcRotateCamera (cam_name c) (alpha_pi c) (beta_pi c) v (target c)
    (controlAttached c) (lowerRadiusLimit c) (upperRadiusLimit c)
    (wheelDeltaPercentage c) (panningSensibility c) (useFramingBehavior c)
    (minZ c) (maxZ c).

Definition setTarget (v : Vector3) (c : ArcRotateCamera) : ArcRotateCamera :=
  mkArcRotateCamera (cam_name c) (alpha_pi c) (beta_pi c) (radius c) v
    (controlAttached c) (lowerRadiusLimit c) (upperRadiusLimit c)
    (wheelDeltaPercentage c) (panningSensibility c) (useFramingBehavior c)
    (minZ c) (maxZ c).

Definition set_controlAttached (v : bool) (c : ArcRotateCamera) : ArcRotateCamera :=
  mkArcRotateCamera (cam_name c) (alpha_pi c) (beta_pi c) (radius c) (target c)
    v (lowerRadiusLimit c) (upperRadiusLimit c)
    (wheelDeltaPercentage c) (panningSensibility c) (useFramingBehavior c)
    (minZ c) (maxZ c).

Definition set_lowerRadiusLimit (v : option Q) (c : ArcRotateCamera) : ArcRotateCamera :=
  mkArcRotateCamera (cam_name c) (alpha_pi c) (beta_pi c) (radius c) (target c)
    (controlAttached c) v (upperRadiusLimit c)
    (wheelDeltaPercentage c) (panningSensibility c) (useFramingBehavior c)
    (minZ c) (maxZ c).

Definition set_upperRadiusLimit (v : option Q) (c : ArcRotateCamera) : ArcRotateCamera :=
  mkArcRotateCamera (cam_name c) (alpha_pi c) (beta_pi c) (radius c) (target c)
    (controlAttached c) (lowerRadiusLimit c) v
    (wheelDeltaPercentage c) (panningSensibility c) (useFramingBehavior c)
    (minZ c) (maxZ c).

Definition set_wheelDeltaPercentage (v : option Q) (c : ArcRotateCamera) : ArcRotateCamera :=
  mkArcRotateCamera (cam_name c) (alpha_pi c) (beta_pi c) (radius c) (target c)
    (controlAttached c) (lowerRadiusLimit c) (upperRadiusLimit c)
    v (panningSensibility c) (useFramingBehavior c)
    (minZ c) (maxZ c).

Definition set_panningSensibility (v : option Q) (c : ArcRotateCamera) : ArcRotateCamera :=
  mkArcRotateCamera (cam_name c) (alpha_pi c) (beta_pi c) (radius c) (target c)
    (controlAttached c) (lowerRadiusLimit c) (upperRadiusLimit c)
    (wheelDeltaPercentage c) v (useFramingBehavior c)
    (minZ c) (maxZ c).

Definition set_useFramingBehavior (v : bool) (c : ArcRotateCamera) : ArcRotateCamera :=
  mkArcRotateCamera (cam_name c) (alpha_pi c) (beta_pi c) (radius c) (target c)
    (controlAttached c) (lowerRadiusLimit c) (upperRadiusLimit c)
    (wheelDeltaPercentage c) (panningSensibility c) v
    (minZ c) (maxZ c).

Definition set_minZ (v : Q) (c : ArcRotateCamera) : ArcRotateCamera :=
  mkArcRotateCamera (cam_name c) (alpha_pi c) (beta_pi c) (radius c) (target c)
    (controlAttached c) (lowerRadiusLimit c) (upperRadiusLimit c)
    (wheelDeltaPercentage c) (panningSensibility c) (useFramingBehavior c)
    v (maxZ c).

Definition set_maxZ (v : Q) (c : ArcRotateCamera) : ArcRotateCamera :=
  mkArcRotateCamera (cam_name c) (alpha_pi c) (beta_pi c) (radius c) (target c)
    (controlAttached c) (lowerRadiusLimit c) (upperRadiusLimit c)
    (wheelDeltaPercentage c) (panningSensibility c) (useFramingBehavior c)
    (minZ c) v.

(** Property writes on the scene. *)
Definition set_clearColor (v : Color4) (s : Scene) : Scene :=
  mkScene (Some v) (activeCamera s) (lights s) (meshes s) (transformNodes s)
          (scene_disposed s).

Definition set_activeCamera (v : option string) (s : Scene) : Scene :=
  mkScene (clearColor s) v (lights s) (meshes s) (transformNodes s)
          (scene_disposed s).

Definition set_lights (v : list Light) (s : Scene) : Scene :=
  mkScene (clearColor s) (activeCamera s) v (meshes s) (transformNodes s)
          (scene_disposed s).

Definition set_meshes (v : list AbstractMesh) (s : Scene) : Scene :=
  mkScene (clearColor s) (activeCamera s) (lights s) v (transformNodes s)
          (scene_disposed s).

Definition set_transformNodes (v : list TransformNode) (s : Scene) : Scene :=
  mkScene (clearColor s) (activeCamera s) (lights s) (meshes s) v
          (scene_disposed s).

Definition dispose_scene (s : Scene) : Scene :=
  mkScene (clearColor s) (activeCamera s) (lights s) (meshes s) (transformNodes s)
          true.

Definition set_renderLoop (v : bool) (e : Engine) : Engine :=
  mkEngine (antialias e) (preserveDrawingBuffer e) (stencil e) v (resizes e)
           (engine_disposed e).

Definition resize (e : Engine) : Engine :=
  mkEngine (antialias e) (preserveDrawingBuffer e) (stencil e) (renderLoop e)
           (S (resizes e)) (engine_disposed e).

Definition dispose_engine (e : Engine) : Engine :=
  mkEngine (antialias e) (preserveDrawingBuffer e) (stencil e) false (resizes e)
           true.

(** ** Objects kept in a list and reached through their index *)

Fixpoint update_nth {A : Type} (i : nat) (f : A -> A) (l : list A) : list A :=
  match l, i with
  | [], _ => []
  | a :: l', O => f a :: l'
  | a :: l', S i' => a :: update_nth i' f l'
  end.

(** [ids.forEach((obj, index) => f(index, obj))] over objects of a store *)
Fixpoint forEach_from {A : Type} (index : nat) (f : nat -> A -> A)
         (ids : list nat) (store : list A) : list A :=
  match ids with
  | [] => store
  | id :: rest => forEach_from (S index) f rest (update_nth id (f index) store)
  end.

Definition forEach {A : Type} (f : nat -> A -> A) (ids : list nat)
           (store : list A) : list A :=
  forEach_from 0 f ids store.

(** The objects a list of indices refers to. *)
Definition deref {A : Type} (ids : list nat) (store : list A) : list A :=
  flat_map (fun id => match nth_error store id with
                      | Some a => [a]
                      | None => []
                      end) ids.

(** ** Hierarchy bounds *)

Record BoundingVectors : Type := mkBounds { bmin : Vector3; bmax : Vector3 }.

(** A node without parent maps a point of its frame to the world by scaling
    and then translating.  The engine does so through a world matrix held in
    single precision; here the arithmetic is exact. *)
Definition toWorld (n : TransformNode) (v : Vector3) : Vector3 :=
  mkVector3 (x (scaling n) * x v + x (position n))
            (y (scaling n) * y v + y (position n))
            (z (scaling n) * z v + z (position n)).

(** [Vector3.CheckExtends(v, min, max)] *)
Definition CheckExtends (b : BoundingVectors) (v : Vector3) : BoundingVectors :=
  mkBounds (mkVector3 (Qmin (x (bmin b)) (x v)) (Qmin (y (bmin b)) (y v))
                      (Qmin (z (bmin b)) (z v)))
           (mkVector3 (Qmax (x (bmax b)) (x v)) (Qmax (y (bmax b)) (y v))
                      (Qmax (z (bmax b)) (z v))).

(** The box around a list of points; without points the engine's sentinels
    (+MAX_VALUE, -MAX_VALUE) come back. *)
Definition extents (pts : list Vector3) : BoundingVectors :=
  match pts with
  | [] => mkBounds (mkVector3 MAX_VALUE MAX_VALUE MAX_VALUE)
                   (mkVector3 (- MAX_VALUE) (- MAX_VALUE) (- MAX_VALUE))
  | p :: rest => fold_left CheckExtends rest (mkBounds p p)
  end.

Definition isChildOf (node : nat) (m : AbstractMesh) : bool :=
  match parent m with
  | Some p => (p =? node)%nat
  | None => false
  end.

(** The world-space corners of the meshes below [node] that pass
    [predicate]; meshes without vertices never count. *)
Definition hierarchyCorners (s : Scene) (node : nat)
           (predicate : AbstractMesh -> bool) : list Vector3 :=
  let nd := nth node (transformNodes s) (new_TransformNode "") in
  flat_map (fun m => [toWorld nd (minimum m); toWorld nd (maximum m)])
           (filter (fun m => isChildOf node m && predicate m
                             && negb (totalVertices m =? 0)%nat)
                   (meshes s)).

(** [node.getHierarchyBoundingVectors(true, predicate)] *)
Definition getHierarchyBoundingVectors (s : Scene) (node : nat)
           (predicate : AbstractMesh -> bool) : BoundingVectors :=
  extents (hierarchyCorners s node predicate).

End Babylon.
Export Babylon.

(* ================================================================== *)
(** * The component *)
(* ================================================================== *)

(** ** Environment: what the engine and the host decide *)

(** The engine and host calls of the component, in source order. *)
Inductive Step : Type :=
| SEngine            (* new Engine(...) *)
| SScene             (* new Scene(engine) *)
| SCamera            (* new ArcRotateCamera(...) *)
| SAttachControl     (* camera.attachControl(...) *)
| SSetTarget         (* camera.setTarget(...) *)
| SLights            (* new HemisphericLight / new DirectionalLight *)
| SRenderLoop        (* engine.runRenderLoop(...) *)
| SAddAllToScene     (* assetContainer.addAllToScene() *)
| SForEachMesh       (* the mesh preparation loop *)
| SPivot             (* new TransformNode(...) *)
| SSetParent         (* m.setParent(...) *)
| SWorldMatrix       (* modelPivot.computeWorldMatrix(true) *)
| SBounds            (* modelPivot.getHierarchyBoundingVectors(...) *)
| SZoomOn            (* camera.zoomOn(...) *)
| SListen            (* window.addEventListener(...) *)
| SUnlisten          (* window.removeEventListener(...) *)
| SDetachControl     (* camera.detachControl() *)
| SDisposeEngine     (* engine.dispose() *)
| SDisposeScene.     (* scene.dispose() *)

Inductive Error : Type :=
| EngineFault (s : Step)       (* an engine or host call threw *)
| LoadRejected                 (* the loader's promise rejected *)
| NoAssetContainer             (* new Error("Failed to load asset container") *)
| TypeError.                   (* a property of null was accessed *)

Inductive ConsoleEntry : Type :=
| console_warn (msg : string)
| console_error (msg : string) (e : Error).

Record AssetContainer : Type := mkAssetContainer {
  container_meshes : list AbstractMesh
}.

Inductive LoadOutcome : Type :=
| Rejects
| Resolves (c : option AssetContainer).

Record Env : Type := mkEnv {
  (** whether the call throws *)
  throws : Step -> bool;
  (** what awaiting the loader yields for a URL *)
  LoadAssetContainerAsync : string -> LoadOutcome;
  (** [camera.zoomOn(meshes, doNotUpdateMaxZ)] *)
  zoomOn : ArcRotateCamera -> list AbstractMesh -> bool -> ArcRotateCamera;
  (** clip planes of a camera the component has not configured *)
  default_minZ : Q;
  default_maxZ : Q
}.

(** ** State: the component's variables and the host *)

Inductive Listener : Type :=
| ResizeEngine.                (* () => { if (engine) engine.resize(); } *)

Record World : Type := mkWorld {
  modelUrl : string;
  canvasElement : bool;          (* the canvas is bound *)
  engine : option Engine;
  scene : option Scene;
  camera : option ArcRotateCamera;
  handleResize : option Listener;
  console : list ConsoleEntry;   (* oldest entry first *)
  resizeListeners : list Listener
}.

(** The state in which the component's script starts. *)
Definition initial (url : string) (canvas : bool) : World :=
  mkWorld url canvas None None None None [] [].

Definition set_engine (v : option Engine) (w : World) : World :=
  mkWorld (modelUrl w) (canvasElement w) v (scene w) (camera w)
          (handleResize w) (console w) (resizeListeners w).

Definition set_scene (v : option Scene) (w : World) : World :=
  mkWorld (modelUrl w) (canvasElement w) (engine w) v (camera w)
          (handleResize w) (console w) (resizeListeners w).

Definition set_camera (v : option ArcRotateCamera) (w : World) : World :=
  mkWorld (modelUrl w) (canvasElement w) (engine w) (scene w) v
          (handleResize w) (console w) (resizeListeners w).

Definition set_handleResize (v : option Listener) (w : World) : World :=
  mkWorld (modelUrl w) (canvasElement w) (engine w) (scene w) (camera w)
          v (console w) (resizeListeners w).

Definition log (e : ConsoleEntry) (w : World) : World :=
  mkWorld (modelUrl w) (canvasElement w) (engine w) (scene w) (camera w)
          (handleResize w) (console w ++ [e]) (resizeListeners w).

Definition set_resizeListeners (v : list Listener) (w : World) : World :=
  mkWorld (modelUrl w) (canvasElement w) (engine w) (scene w) (camera w)
          (handleResize w) (console w) v.

(** ** The monad: state with exceptions

    A thrown exception keeps the state reached so far. *)

Inductive Completion (A : Type) : Type :=
| Normal (a : A) (w : World)
| Abrupt (e : Error) (w : World).

Arguments Normal {A} a w.
Arguments Abrupt {A} e w.

Definition Js (A : Type) : Type := World -> Completion A.

Definition ret {A : Type} (a : A) : Js A := fun w => Normal a w.

Definition throw {A : Type} (e : Error) : Js A := fun w => Abrupt e w.

Definition bind {A B : Type} (m : Js A) (k : A -> Js B) : Js B :=
  fun w => match m w with
           | Normal a w' => k a w'
           | Abrupt e w' => Abrupt e w'
           end.

Notation "x <- m ;; k" := (bind m (fun x => k))
  (at level 61, m at next level, right associativity).
Notation "m ;; k" := (bind m (fun _ => k))
  (at level 61, right associativity).

(** [try { body } catch (error) { handler(error) }] *)
Definition try_catch {A : Type} (body : Js A) (handler : Error -> Js A) : Js A :=
  fun w => match body w with
           | Normal a w' => Normal a w'
           | Abrupt e w' => handler e w'
           end.

Definition modify (f : World -> World) : Js unit := fun w => Normal tt (f w).

(** An engine or host call: it throws when the environment says so. *)
Definition call (env : Env) (s : Step) : Js unit :=
  fun w => if throws env s then Abrupt (EngineFault s) w else Normal tt w.

(** Access through a variable that may hold [null]. *)
Definition on_engine (f : Engine -> Engine) : Js unit :=
  fun w => match engine w with
           | Some e => Normal tt (set_engine (Some (f e)) w)
           | None => Abrupt TypeError w
           end.

Definition on_scene (f : Scene -> Scene) : Js unit :=
  fun w => match scene w with
           | Some s => Normal tt (set_scene (Some (f s)) w)
           | None => Abrupt TypeError w
           end.

Definition on_camera (f : ArcRotateCamera -> ArcRotateCamera) : Js unit :=
  fun w => match camera w with
           | Some c => Normal tt (set_camera (Some (f c)) w)
           | None => Abrupt TypeError w
           end.

Definition the_scene : Js Scene :=
  fun w => match scene w with
           | Some s => Normal s w
           | None => Abrupt TypeError w
           end.

(** [if (v) { k }] for a variable that may hold [null] *)
Definition when_set {A : Type} (v : World -> option A) (k : Js unit) : Js unit :=
  fun w => match v w with
           | Some _ => k w
           | None => Normal tt w
           end.

(** ** Activation, lines 38-71: engine, scene, camera, lights, render loop *)

(** [new ArcRotateCamera(name, alpha, beta, radius, target, scene)] *)
Definition new_ArcRotateCamera (env : Env) (name : string)
           (alpha beta radius : Q) (target : Vector3) : ArcRotateCamera :=
  mkArcRotateCamera name alpha beta radius target false None None None None
                    false (default_minZ env) (default_maxZ env).

Definition new_Scene : Scene := mkScene None None [] [] [] false.

Definition add_light (l : Light) (s : Scene) : Scene :=
  set_lights (lights s ++ [l]) s.

Definition setup (env : Env) : Js unit :=
  call env SEngine ;;
  modify (set_engine (Some (mkEngine true true true false 0 false))) ;;
  call env SScene ;;
  modify (set_scene (Some new_Scene)) ;;
  on_scene (set_clearColor (mkColor4 0.1 0.1 0.1 1.0)) ;;
  call env SCamera ;;
  modify (set_camera
            (Some (new_ArcRotateCamera env "camera" (- (1 / 2)) (1 / 2.5) 10 Zero))) ;;
  call env SAttachControl ;;
  on_camera (set_controlAttached true) ;;
  call env SSetTarget ;;
  on_camera (setTarget Zero) ;;
  on_camera (set_lowerRadiusLimit (Some 0.1)) ;;
  on_camera (set_upperRadiusLimit (Some 1000)) ;;
  on_camera (set_wheelDeltaPercentage (Some 0.01)) ;;
  on_camera (set_panningSensibility (Some 0)) ;;
  on_scene (set_activeCamera (Some "camera"%string)) ;;
  call env SLights ;;
  on_scene (add_light (mkLight "light" true (mkVector3 0 1 0) 1)) ;;
  call env SLights ;;
  on_scene (add_light (mkLight "dirLight" false
                               (mkVector3 (- (1)) (- (1)) (- (1))) 0.5)) ;;
  call env SRenderLoop ;;
  on_engine (set_renderLoop true).

(** ** Activation, lines 73-89: load, merge, prepare every mesh *)

(** [await LoadAssetContainerAsync(modelUrl, scene)] and the check of line 74 *)
Definition load (env : Env) : Js AssetContainer :=
  fun w => match LoadAssetContainerAsync env (modelUrl w) with
           | Rejects => Abrupt LoadRejected w
           | Resolves None => Abrupt NoAssetContainer w
           | Resolves (Some c) => Normal c w
           end.

(** [assetContainer.addAllToScene()]; returns the indices under which the
    container's meshes now live in the scene. *)
Definition addAllToScene (env : Env) (c : AssetContainer) : Js (list nat) :=
  call env SAddAllToScene ;;
  s <- the_scene ;;
  on_scene (set_meshes (meshes s ++ container_meshes c)) ;;
  ret (seq (List.length (meshes s)) (List.length (container_meshes c))).

(** [`defaultMat_${index}`] *)
Definition defaultMat_name (index : nat) : string :=
  ("defaultMat_" ++ NilEmpty.string_of_uint (Nat.to_uint index))%string.

(** The body of the loop of lines 80-89; [sceneSet] is the truth value of the
    variable [scene]. *)
Definition prepare_mesh (sceneSet : bool) (index : nat) (mesh : AbstractMesh)
  : AbstractMesh :=
  let mesh := setEnabled true mesh in
  let mesh := set_isVisible true mesh in
  match material mesh with
  | None =>
      if sceneSet then
        let defaultMat := new_StandardMaterial (defaultMat_name index) in
        let defaultMat := set_diffuseColor (mkColor3 0.8 0.8 0.8) defaultMat in
        set_material defaultMat mesh
      else mesh
  | Some _ => mesh
  end.

Definition is_set {A : Type} (v : option A) : bool :=
  match v with Some _ => true | None => false end.

Definition prepare_meshes (env : Env) (containerMeshes : list nat) : Js unit :=
  call env SForEachMesh ;;
  (fun w => on_scene (fun s => set_meshes
                        (forEach (prepare_mesh (is_set (scene w)))
                                 containerMeshes (meshes s)) s) w).

(** Line 79: the container's meshes with at least one vertex. *)
Definition renderable (s : Scene) (containerMeshes : list nat) : list nat :=
  filter (fun id => match nth_error (meshes s) id with
                    | Some m => hasVertices m
                    | None => false
                    end) containerMeshes.

(** ** Activation, lines 91-140: the normalization pass *)

(** Lines 100-101 and 115-116: the largest extent of a box.  Over [Q] the
    difference cannot overflow; [Ieee.maxDimensionOf] is the same on
    binary64 numbers. *)
Definition maxDimensionOf (b : BoundingVectors) : Q :=
  let size := subtract (bmax b) (bmin b) in
  Math_max3 (x size) (y size) (z size).

Definition on_node (node : nat) (f : TransformNode -> TransformNode)
           (s : Scene) : Scene :=
  set_transformNodes (update_nth node f (transformNodes s)) s.

Definition default_view (env : Env) : Js unit :=
  call env SSetTarget ;;
  on_camera (setTarget Zero) ;;
  on_camera (set_radius 10).

(** Lines 104-131: scale the pivot, re-centre it, frame the camera.  The
    radius and the limits are functions of the extent re-measured at lines
    111-116, whatever it is. *)
Definition scale_and_frame (env : Env) (renderMeshes : list nat)
           (modelPivot : nat) (center : Vector3) (maxDimension : Q) : Js unit :=
  let desiredSize := 10 in
  let scale := desiredSize / maxDimension in
  on_scene (on_node modelPivot (set_scaling (mkVector3 scale scale scale))) ;;
  on_scene (on_node modelPivot (set_position (Babylon.scale center (- scale)))) ;;
  call env SWorldMatrix ;;
  call env SBounds ;;
  s2 <- the_scene ;;
  let postBounds := getHierarchyBoundingVectors s2 modelPivot hasVertices in
  let postMaxDimension := maxDimensionOf postBounds in
  on_camera (set_useFramingBehavior false) ;;
  call env SSetTarget ;;
  on_camera (setTarget Zero) ;;
  let radius := Qmax (postMaxDimension * 1.5) 3 in
  on_camera (set_radius radius) ;;
  let upperLimit := Qmax (radius * 4) (radius + 5) in
  on_camera (set_lowerRadiusLimit (Some 0.01)) ;;
  on_camera (set_upperRadiusLimit (Some upperLimit)) ;;
  on_camera (set_minZ 0.01) ;;
  on_camera (fun c => set_maxZ (to_number (upperRadiusLimit c) * 5) c) ;;
  call env SZoomOn ;;
  on_camera (fun c => zoomOn env c (deref renderMeshes (meshes s2)) true) ;;
  on_camera (fun c => set_maxZ (to_number (upperRadiusLimit c) * 5) c).

(** Lines 92-94: the pivot and the render meshes below it. *)
Definition create_pivot (env : Env) (renderMeshes : list nat) : Js nat :=
  s0 <- the_scene ;;
  call env SPivot ;;
  let modelPivot := List.length (transformNodes s0) in
  on_scene (fun s => set_transformNodes
                       (transformNodes s ++ [new_TransformNode "modelPivot"]) s) ;;
  call env SSetParent ;;
  on_scene (fun s => set_meshes
                       (forEach (fun _ => setParent modelPivot)
                                renderMeshes (meshes s)) s) ;;
  call env SWorldMatrix ;;
  ret modelPivot.

Definition normalization_pass (env : Env) (renderMeshes : list nat) : Js unit :=
  if (0 <? List.length renderMeshes)%nat then
    modelPivot <- create_pivot env renderMeshes ;;
    call env SBounds ;;
    s1 <- the_scene ;;
    let preBounds := getHierarchyBoundingVectors s1 modelPivot hasVertices in
    let center := Center (bmin preBounds) (bmax preBounds) in
    let maxDimension := maxDimensionOf preBounds in
    if Qlt_le_dec 0 maxDimension then
      scale_and_frame env renderMeshes modelPivot center maxDimension
    else
      default_view env
  else
    modify (log (console_warn "No renderable meshes found (0 vertices)")) ;;
    default_view env.

(** ** Activation, lines 142-147: the resize subscription *)

Definition subscribe (env : Env) : Js unit :=
  modify (set_handleResize (Some ResizeEngine)) ;;
  call env SListen ;;
  modify (fun w => set_resizeListeners (resizeListeners w ++ [ResizeEngine]) w).

(** ** [onMount] *)

(** The guarded body, lines 38-147. *)
Definition mount_body (env : Env) : Js unit :=
  setup env ;;
  assetContainer <- load env ;;
  containerMeshes <- addAllToScene env assetContainer ;;
  s <- the_scene ;;
  let renderMeshes := renderable s containerMeshes in
  prepare_meshes env containerMeshes ;;
  normalization_pass env renderMeshes ;;
  subscribe env.

Definition onMount (env : Env) : Js unit :=
  fun w =>
    if negb (canvasElement w) || (modelUrl w =? "")%string then Normal tt w
    else try_catch (mount_body env)
                   (fun error => modify (log (console_error "Error loading model:" error)))
                   w.

(** A resize event reaching the window: every listener runs. *)
Definition run_listener (l : Listener) (w : World) : World :=
  match l, engine w with
  | ResizeEngine, Some e => set_engine (Some (resize e)) w
  | ResizeEngine, None => w
  end.

Definition window_resize (w : World) : World :=
  fold_left (fun w l => run_listener l w) (resizeListeners w) w.

(** ** [onDestroy], lines 153-166 *)

Definition removeEventListener (l : Listener) (ls : list Listener) : list Listener :=
  filter (fun l' => match l, l' with ResizeEngine, ResizeEngine => false end) ls.

Definition unsubscribe (env : Env) : Js unit :=
  call env SUnlisten ;;
  (fun w => match handleResize w with
            | Some h => Normal tt (set_resizeListeners
                                     (removeEventListener h (resizeListeners w)) w)
            | None => Abrupt TypeError w
            end).

Definition detachControl (env : Env) : Js unit :=
  call env SDetachControl ;;
  on_camera (set_controlAttached false).

Definition disposeEngine (env : Env) : Js unit :=
  call env SDisposeEngine ;;
  on_engine dispose_engine.

Definition disposeScene (env : Env) : Js unit :=
  call env SDisposeScene ;;
  on_scene dispose_scene.

Definition onDestroy (env : Env) : Js unit :=
  when_set handleResize (unsubscribe env) ;;
  when_set camera (detachControl env) ;;
  when_set engine (disposeEngine env) ;;
  when_set scene (disposeScene env).

(* ================================================================== *)
(** * Vocabulary of the statements *)
(* ================================================================== *)

(** ** Assumptions on the environment *)

(** No call throws. *)
Definition quiet (env : Env) : Prop := forall s, throws env s = false.

(** The four release calls of [onDestroy] do not throw. *)
Definition releases_quiet (env : Env) : Prop :=
  throws env SUnlisten = false /\ throws env SDetachControl = false /\
  throws env SDisposeEngine = false /\ throws env SDisposeScene = false.

(** What the component relies on when it calls [zoomOn(meshes, true)]: the
    radius limits and the near plane are not touched. *)
Definition zoom_keeps_limits (env : Env) : Prop :=
  forall c ms,
    lowerRadiusLimit (zoomOn env c ms true) = lowerRadiusLimit c /\
    upperRadiusLimit (zoomOn env c ms true) = upperRadiusLimit c /\
    minZ (zoomOn env c ms true) = minZ c.

(** A [zoomOn] that leaves the camera at the distance it finds it at. *)
Definition zoom_keeps_radius (env : Env) : Prop :=
  forall c ms, radius (zoomOn env c ms true) = radius c.

(** ** The states the normalization pass goes through *)

(** The index under which line 92 registers the pivot. *)
Definition pivot_of (s : Scene) : nat := List.length (transformNodes s).

(** The scene after lines 92-93: pivot created, render meshes below it. *)
Definition reparented (s : Scene) (renderMeshes : list nat) : Scene :=
  let s1 := set_transformNodes
              (transformNodes s ++ [new_TransformNode "modelPivot"]) s in
  set_meshes (forEach (fun _ => setParent (pivot_of s)) renderMeshes (meshes s1)) s1.

(** Lines 95-98: the box before scaling. *)
Definition preBounds (s : Scene) (renderMeshes : list nat) : BoundingVectors :=
  getHierarchyBoundingVectors (reparented s renderMeshes) (pivot_of s) hasVertices.

(** The scene after lines 105-108. *)
Definition scaled (s : Scene) (modelPivot : nat) (center : Vector3)
           (maxDimension : Q) : Scene :=
  let scale := 10 / maxDimension in
  on_node modelPivot (set_position (Babylon.scale center (- scale)))
          (on_node modelPivot (set_scaling (mkVector3 scale scale scale)) s).

Definition normalized (s : Scene) (renderMeshes : list nat) : Scene :=
  let b := preBounds s renderMeshes in
  scaled (reparented s renderMeshes) (pivot_of s)
         (Center (bmin b) (bmax b)) (maxDimensionOf b).

(** Lines 111-116: the box after scaling. *)
Definition postBounds (s : Scene) (renderMeshes : list nat) : BoundingVectors :=
  getHierarchyBoundingVectors (normalized s renderMeshes) (pivot_of s) hasVertices.

(** The camera after lines 118-128, as [zoomOn] receives it. *)
Definition framed (postMaxDimension : Q) (c : ArcRotateCamera) : ArcRotateCamera :=
  let radius := Qmax (postMaxDimension * 1.5) 3 in
  let upperLimit := Qmax (radius * 4) (radius + 5) in
  set_maxZ (upperLimit * 5)
    (set_minZ 0.01
       (set_upperRadiusLimit (Some upperLimit)
          (set_lowerRadiusLimit (Some 0.01)
             (set_radius radius
                (setTarget Zero (set_useFramingBehavior false c)))))).

(** The camera after lines 130-131. *)
Definition zoomed (env : Env) (s : Scene) (renderMeshes : list nat)
           (c : ArcRotateCamera) : ArcRotateCamera :=
  let c' := zoomOn env c (deref renderMeshes (meshes s)) true in
  set_maxZ (to_number (upperRadiusLimit c') * 5) c'.

(** The camera after lines 133-134 and 138-139. *)
Definition defaulted (c : ArcRotateCamera) : ArcRotateCamera :=
  set_radius 10 (setTarget Zero c).

(** ** The states activation goes through before the pass *)

(** The engine, camera and scene that lines 38-71 leave behind. *)
Definition engine0 : Engine := mkEngine true true true true 0 false.

Definition camera0 (env : Env) : ArcRotateCamera :=
  set_panningSensibility (Some 0)
    (set_wheelDeltaPercentage (Some 0.01)
       (set_upperRadiusLimit (Some 1000)
          (set_lowerRadiusLimit (Some 0.1)
             (setTarget Zero
                (set_controlAttached true
                   (new_ArcRotateCamera env "camera" (- (1 / 2)) (1 / 2.5) 10
                                        Zero)))))).

Definition scene0 : Scene :=
  add_light (mkLight "dirLight" false (mkVector3 (- (1)) (- (1)) (- (1))) 0.5)
    (add_light (mkLight "light" true (mkVector3 0 1 0) 1)
       (set_activeCamera (Some "camera"%string)
          (set_clearColor (mkColor4 0.1 0.1 0.1 1.0) new_Scene))).

Definition set_up (env : Env) (url : string) : World :=
  mkWorld url true (Some engine0) (Some scene0) (Some (camera0 env)) None [] [].

(** The scene after line 77 and after line 89. *)
Definition merged (cm : list AbstractMesh) : Scene :=
  set_meshes (meshes scene0 ++ cm) scene0.

Definition prepared (cm : list AbstractMesh) : Scene :=
  set_meshes (forEach (prepare_mesh true) (seq 0 (List.length cm))
                      (meshes (merged cm)))
             (merged cm).

(** The world in which the pass starts when the loader delivered [cm]. *)
Definition ready (env : Env) (url : string) (cm : list AbstractMesh) : World :=
  set_scene (Some (prepared cm)) (set_up env url).

(** The world after lines 142-147. *)
Definition subscribed (w : World) : World :=
  set_resizeListeners (resizeListeners w ++ [ResizeEngine])
                      (set_handleResize (Some ResizeEngine) w).

(** ** Predicates *)

(** [affine s p u]: the point [u] scaled by [s] and moved by [p]. *)
Definition affine (s : Q) (p u : Vector3) : Vector3 :=
  mkVector3 (s * x u + x p) (s * y u + y p) (s * z u + z p).

Definition moved (s : Q) (p u v : Vector3) : Prop := v =v= affine s p u.

Definition box_moved (s : Q) (p : Vector3) (b b' : BoundingVectors) : Prop :=
  moved s p (bmin b) (bmin b') /\ moved s p (bmax b) (bmax b').

(** The radius limits and the clip planes of a camera are in order. *)
Definition limits_ordered (c : ArcRotateCamera) : Prop :=
  exists lo hi,
    lowerRadiusLimit c = Some lo /\ upperRadiusLimit c = Some hi /\
    lo <= hi /\ minZ c <= maxZ c.

(** What lines 80-89 promise about a mesh [m], given the mesh [m0] the loader
    delivered. *)
Definition shown (m0 m : AbstractMesh) : Prop :=
  enabled m = true /\ isVisible m = true /\
  match material m0 with
  | Some mt => material m = Some mt
  | None => exists mt, material m = Some mt /\
                       diffuseColor mt = mkColor3 0.8 0.8 0.8 /\ alpha mt = 1
  end.

(** The list a loop over consecutive indices leaves behind. *)
Fixpoint mapi_from {A : Type} (index : nat) (f : nat -> A -> A) (l : list A)
  : list A :=
  match l with
  | [] => []
  | a :: l' => f index a :: mapi_from (S index) f l'
  end.

(** ** Example inputs *)

(** A [zoomOn] that leaves the camera as it finds it, and one that backs the
    camera off to twice its distance. *)
Definition zoom_id (c : ArcRotateCamera) (ms : list AbstractMesh) (b : bool)
  : ArcRotateCamera := c.

Definition zoom_back (c : ArcRotateCamera) (ms : list AbstractMesh) (b : bool)
  : ArcRotateCamera := set_radius (radius c * 2) c.

(** An environment in which nothing throws and the loader delivers [ms]. *)
Definition serving (ms : list AbstractMesh) : Env :=
  mkEnv (fun _ => false)
        (fun _ => Resolves (Some (mkAssetContainer ms)))
        zoom_id 1 10000.

(** The same with the zoom that backs off. *)
Definition serving_back (ms : list AbstractMesh) : Env :=
  mkEnv (fun _ => false)
        (fun _ => Resolves (Some (mkAssetContainer ms)))
        zoom_back 1 10000.

(** An environment whose loader rejects. *)
Definition rejecting : Env :=
  mkEnv (fun _ => false) (fun _ => Rejects) zoom_id 1 10000.

(** A mesh as a loader delivers it. *)
Definition loaded_mesh (vertices : nat) (mat : option StandardMaterial)
           (lo hi : Vector3) : AbstractMesh :=
  mkAbstractMesh vertices false false mat None lo hi.

(** The single mesh of the worked example: (0,0,0)-(2,4,2), no material. *)
Definition example_mesh : AbstractMesh :=
  loaded_mesh 8 None (mkVector3 0 0 0) (mkVector3 2 4 2).

(** A mesh whose single vertex sits at (1,1,1). *)
Definition point_mesh : AbstractMesh :=
  loaded_mesh 1 None (mkVector3 1 1 1) (mkVector3 1 1 1).

(** A mesh without vertices. *)
Definition hollow_mesh : AbstractMesh :=
  loaded_mesh 0 None (mkVector3 0 0 0) (mkVector3 3 3 3).

(** A mesh that arrives with a material of its own. *)
Definition painted_mesh : AbstractMesh :=
  loaded_mesh 0 (Some (mkStandardMaterial "red" (mkColor3 1 0 0) 0.5))
              (mkVector3 0 0 0) (mkVector3 1 1 1).

Definition example_env : Env := serving [example_mesh].

(** An environment in which [zoomOn] throws. *)
Definition zoom_failing : Env :=
  mkEnv (fun st => match st with SZoomOn => true | _ => false end)
        (fun _ => Resolves (Some (mkAssetContainer [example_mesh])))
        zoom_id 1 10000.

(** The worlds in which the pass starts for the example meshes. *)
Definition example_world : World := ready example_env "model.glb" [example_mesh].

Definition point_world : World :=
  ready (serving [point_mesh]) "point.glb" [point_mesh].

Definition hollow_world : World :=
  ready (serving [hollow_mesh]) "hollow.glb" [hollow_mesh].

(** A session in which activation stopped after creating the engine only. *)
Definition engine_only : World :=
  mkWorld "model.glb" true (Some engine0) None None None [] [].

(** ** Further vocabulary: meshes, boxes and events *)

(** The mesh activation leaves at position [index] of the container, given
    the mesh [m0] the loader delivered there. *)
Definition placed_mesh (index : nat) (m0 : AbstractMesh) : AbstractMesh :=
  let m := prepare_mesh true index m0 in
  if hasVertices m0 then setParent 0 m else m.

(** The corners of the container's meshes that have vertices, as loaded. *)
Definition container_corners (cm : list AbstractMesh) : list Vector3 :=
  flat_map (fun m => [minimum m; maximum m]) (filter hasVertices cm).

(** The box around them. *)
Definition container_box (cm : list AbstractMesh) : BoundingVectors :=
  extents (container_corners cm).

(** A point inside a box, and inside the cube of edge 10 around the origin. *)
Definition inside (v : Vector3) (b : BoundingVectors) : Prop :=
  x (bmin b) <= x v <= x (bmax b) /\
  y (bmin b) <= y v <= y (bmax b) /\
  z (bmin b) <= z v <= z (bmax b).

Definition in_cube (v : Vector3) : Prop :=
  - (5) <= x v <= 5 /\ - (5) <= y v <= 5 /\ - (5) <= z v <= 5.

(** The world a completion ends in. *)
Definition final {A : Type} (c : Completion A) : World :=
  match c with
  | Normal _ w => w
  | Abrupt _ w => w
  end.

(** A container in which only the second mesh lacks a material. *)
Definition mixed_container : list AbstractMesh := [painted_mesh; example_mesh].

(** A container with a mesh that has no vertices but a large box. *)
Definition cluttered_container : list AbstractMesh :=
  [loaded_mesh 0 None (mkVector3 (- (100)) (- (100)) (- (100)))
               (mkVector3 100 100 100);
   example_mesh].

(** A [zoomOn] that moves the camera out and pulls the far plane in, and an
    environment built on it. *)
Definition zoom_clip (c : ArcRotateCamera) (ms : list AbstractMesh) (b : bool)
  : ArcRotateCamera := set_maxZ 1 (set_radius (radius c * 2) c).

Definition serving_clip (ms : list AbstractMesh) : Env :=
  mkEnv (fun _ => false)
        (fun _ => Resolves (Some (mkAssetContainer ms)))
        zoom_clip 1 10000.

(** A [zoomOn] after the engine's own: whatever radius the camera had, it is
    moved to the distance at which the bounding sphere of the meshes fills
    the view; with [doNotUpdateMaxZ] the far plane stays.  The engine derives
    that distance from the sphere, the field of view and the canvas; here it
    is the parameter [distance]. *)
Definition zoom_to (distance : Q) (c : ArcRotateCamera) (ms : list AbstractMesh)
           (doNotUpdateMaxZ : bool) : ArcRotateCamera :=
  let c' := set_radius distance c in
  if doNotUpdateMaxZ then c' else set_maxZ (distance * 2) c'.

(** For the example mesh scaled to (-2.5,-5,-2.5)-(2.5,5,2.5) the sphere has
    radius sqrt(150)/2; with the default field of view 0.8 on a landscape
    canvas the engine's distance is sqrt(150)/2 * sqrt(1 + 1/tan(0.4)^2),
    which is 15.7253 to four places. *)
Definition serving_framed (ms : list AbstractMesh) : Env :=
  mkEnv (fun _ => false)
        (fun _ => Resolves (Some (mkAssetContainer ms)))
        (zoom_to 15.7253) 1 10000.

(** An environment whose loader resolves to nothing. *)
Definition resolving_null : Env :=
  mkEnv (fun _ => false) (fun _ => Resolves None) zoom_id 1 10000.

(** An environment in which the engine cannot be created. *)
Definition engineless : Env :=
  mkEnv (fun st => match st with SEngine => true | _ => false end)
        (fun _ => Resolves (Some (mkAssetContainer [example_mesh])))
        zoom_id 1 10000.

(** ** Assertions on every way a computation can end *)

(** From a world satisfying [P], [m] ends normally in a world satisfying
    [N], or abruptly in a world satisfying [R]. *)
Definition triple {A : Type} (P : World -> Prop) (m : Js A)
           (N : A -> World -> Prop) (R : World -> Prop) : Prop :=
  forall w, P w -> match m w with
                   | Normal a w' => N a w'
                   | Abrupt _ w' => R w'
                   end.

(** [m] keeps [I], however it ends. *)
Definition keeps {A : Type} (I : World -> Prop) (m : Js A) : Prop :=
  triple I m (fun _ => I) I.

(** [I] does not look at the engine, the scene or the camera. *)
Definition blind (I : World -> Prop) : Prop :=
  (forall w v, I w -> I (set_engine v w)) /\
  (forall w v, I w -> I (set_scene v w)) /\
  (forall w v, I w -> I (set_camera v w)).

(** The warning of line 137. *)
Definition no_meshes_warning : ConsoleEntry :=
  console_warn "No renderable meshes found (0 vertices)".

(** The console holds nothing, or only the warning of line 137. *)
Definition quiet_console (w : World) : Prop :=
  console w = [] \/ console w = [no_meshes_warning].

(** No listener registered, no handler stored. *)
Definition unsubscribed (w : World) : Prop :=
  resizeListeners w = [] /\ handleResize w = None.

(** ** Activation around its one suspension point

    [onMount] is an [async] function with a single [await] (line 73): the
    call of [onMount] runs lines 35-71, the continuation runs lines 73-147
    once the loader has settled; the [try] of line 37 covers both. *)

Inductive Progress : Type :=
| Finished                     (* returned or failed before the await *)
| Awaiting.                    (* suspended on the loader *)

(** Lines 35-71, run by the call itself. *)
Definition onMount_start (env : Env) (w : World) : Progress * World :=
  if negb (canvasElement w) || (modelUrl w =? "")%string then (Finished, w)
  else match setup env w with
       | Normal _ w' => (Awaiting, w')
       | Abrupt error w' =>
           (Finished, log (console_error "Error loading model:" error) w')
       end.

(** Lines 73-147, the continuation. *)
Definition mount_rest (env : Env) : Js unit :=
  assetContainer <- load env ;;
  containerMeshes <- addAllToScene env assetContainer ;;
  s <- the_scene ;;
  let renderMeshes := renderable s containerMeshes in
  prepare_meshes env containerMeshes ;;
  normalization_pass env renderMeshes ;;
  subscribe env.

Definition onMount_resume (env : Env) (w : World) : World :=
  final (try_catch (mount_rest env)
                   (fun error => modify (log (console_error "Error loading model:" error)))
                   w).

(** ** The pointer handlers of the canvas, lines 32 and 169-178 *)

Inductive PointerEvent : Type :=
| pointerdown
| pointerup
| pointerleave
| pointercancel.

(** The new value of [isDragging] after an event. *)
Definition on_pointer (isDragging : bool) (e : PointerEvent) : bool :=
  match e with
  | pointerdown => true
  | pointerup => false
  | pointerleave => false
  | pointercancel => false
  end.

(** [class:cursor-grab={!isDragging}] and [class:cursor-grabbing={isDragging}] *)
Definition cursor_grab (isDragging : bool) : bool := negb isDragging.
Definition cursor_grabbing (isDragging : bool) : bool := isDragging.

(** Three coincident single-vertex meshes away from the origin, and a mesh
    without vertices. *)
Definition collapsed_container : list AbstractMesh :=
  [point_mesh; hollow_mesh; point_mesh; point_mesh].

(** ** The arithmetic of the pass on binary64 numbers

    Lines 94-122 once more, for the boxes of the render meshes below a new
    pivot, with the numbers the program computes with: IEEE 754 binary64,
    where a difference can overflow to infinity and a quotient can underflow
    to 0.  The engine stores a node's world matrix in single precision; the
    entries used in the statements about this module (0, 1, 2.5 and their
    products with the corners) are the same in both precisions. *)

Module Ieee.

Import PrimFloat.
Local Open Scope float_scope.

Record Vector3 : Type := mkVector3 { x : float; y : float; z : float }.

Definition Zero : Vector3 := mkVector3 0 0 0.
Definition One : Vector3 := mkVector3 1 1 1.

Definition Center (a b : Vector3) : Vector3 :=
  mkVector3 ((x a + x b) / 2) ((y a + y b) / 2) ((z a + z b) / 2).

Definition subtract (a b : Vector3) : Vector3 :=
  mkVector3 (x a - x b) (y a - y b) (z a - z b).

Definition scale (a : Vector3) (k : float) : Vector3 :=
  mkVector3 (x a * k) (y a * k) (z a * k).

(** [Math.max]: NaN if an argument is NaN, and +0 above -0. *)
Definition Math_max (a b : float) : float :=
  if is_nan a || is_nan b then nan
  else if a <? b then b
  else if b <? a then a
  else if get_sign a then b else a.

Definition Math_max3 (a b c : float) : float := Math_max (Math_max a b) c.

(** [Number.MAX_VALUE] *)
Definition MAX_VALUE : float := 0x1.fffffffffffffp+1023.

Record TransformNode : Type := mkTransformNode {
  scaling : Vector3;
  position : Vector3
}.

Definition toWorld (n : TransformNode) (v : Vector3) : Vector3 :=
  mkVector3 (x (scaling n) * x v + x (position n))
            (y (scaling n) * y v + y (position n))
            (z (scaling n) * z v + z (position n)).

Record BoundingVectors : Type := mkBounds { bmin : Vector3; bmax : Vector3 }.

(** [minimizeInPlace] and [maximizeInPlace] on one coordinate *)
Definition minimize (m v : float) : float := if v <? m then v else m.
Definition maximize (m v : float) : float := if m <? v then v else m.

Definition CheckExtends (b : BoundingVectors) (v : Vector3) : BoundingVectors :=
  mkBounds (mkVector3 (minimize (x (bmin b)) (x v)) (minimize (y (bmin b)) (y v))
                      (minimize (z (bmin b)) (z v)))
           (mkVector3 (maximize (x (bmax b)) (x v)) (maximize (y (bmax b)) (y v))
                      (maximize (z (bmax b)) (z v))).

(** [node.getHierarchyBoundingVectors] over the boxes (minimum, maximum) of
    the meshes below [node], starting from the engine's sentinels. *)
Definition getHierarchyBoundingVectors (node : TransformNode)
           (boxes : list (Vector3 * Vector3)) : BoundingVectors :=
  fold_left (fun b box => CheckExtends (CheckExtends b (toWorld node (fst box)))
                                       (toWorld node (snd box)))
            boxes
            (mkBounds (mkVector3 MAX_VALUE MAX_VALUE MAX_VALUE)
                      (mkVector3 (- MAX_VALUE) (- MAX_VALUE) (- MAX_VALUE))).

Definition maxDimensionOf (b : BoundingVectors) : float :=
  let size := subtract (bmax b) (bmin b) in
  Math_max3 (x size) (y size) (z size).

(** What the pass computes: the extent before scaling, the pivot it leaves,
    the extent re-measured at lines 111-116 (if the branch of line 103 is
    taken) and the radius assigned at line 122 or at line 134. *)
Record Outcome : Type := mkOutcome {
  maxDimension : float;
  modelPivot : TransformNode;
  postMaxDimension : option float;
  radius : float
}.

Definition normalize (boxes : list (Vector3 * Vector3)) : Outcome :=
  let modelPivot := mkTransformNode One Zero in
  let preBounds := getHierarchyBoundingVectors modelPivot boxes in
  let center := Center (bmin preBounds) (bmax preBounds) in
  let maxDimension := maxDimensionOf preBounds in
  if 0 <? maxDimension then
    let desiredSize := 10 in
    let scale := desiredSize / maxDimension in
    let modelPivot :=
      mkTransformNode (mkVector3 scale scale scale) (Ieee.scale center (- scale)) in
    let postBounds := getHierarchyBoundingVectors modelPivot boxes in
    let postMaxDimension := maxDimensionOf postBounds in
    let radius := Math_max (postMaxDimension * 1.5) 3 in
    mkOutcome maxDimension modelPivot (Some postMaxDimension) radius
  else
    mkOutcome maxDimension modelPivot None 10.

(** [a] and [b] differ by at most [tolerance]. *)
Definition near (a b tolerance : float) : bool := abs (a - b) <=? tolerance.

(** The box of the worked example, and a box from -1e308 to 1e308 on every
    axis (the binary64 number that the literal 1e308 denotes). *)
Definition example_box : Vector3 * Vector3 :=
  (mkVector3 0 0 0, mkVector3 2 4 2).

Definition huge : float := 0x1.1ccf385ebc8ap+1023.

Definition huge_box : Vector3 * Vector3 :=
  (mkVector3 (- huge) (- huge) (- huge), mkVector3 huge huge huge).

Definition ten : float := 10.

(** What the worked example expects: extent 4, pivot scale 2.5 at
    (-2.5,-5,-2.5), extent 10 afterwards, radius 15. *)
Definition example_outcome : Outcome :=
  mkOutcome 4
            (mkTransformNode (mkVector3 2.5 2.5 2.5)
                             (mkVector3 (- 2.5) (- 5) (- 2.5)))
            (Some 10) 15.

End Ieee.

(* ================================================================== *)
(** * Properties *)
(* ================================================================== *)

(** ** Arithmetic of boxes under a uniform positive scale and a shift *)

Lemma Qmin_affine (s p a b a' b' : Q) :
  0 < s -> a' == s * a + p -> b' == s * b + p ->
  Qmin a' b' == s * Qmin a b + p.
Proof.
  intros Hs Ha Hb. rewrite Ha, Hb.
  destruct (Q.min_spec a b) as [[Hlt He]|[Hle He]]; rewrite He.
  - apply Q.min_l. nra.
  - apply Q.min_r. nra.
Qed.

Lemma Qmax_affine (s p a b a' b' : Q) :
  0 < s -> a' == s * a + p -> b' == s * b + p ->
  Qmax a' b' == s * Qmax a b + p.
Proof.
  intros Hs Ha Hb. rewrite Ha, Hb.
  destruct (Q.max_spec a b) as [[Hlt He]|[Hle He]]; rewrite He.
  - apply Q.max_r. nra.
  - apply Q.max_l. nra.
Qed.

Lemma MAX_VALUE_pos : 0 < MAX_VALUE.
Proof. reflexivity. Qed.

Lemma CheckExtends_moved (s : Q) (p : Vector3) (b b' : BoundingVectors)
      (v v' : Vector3) :
  0 < s -> box_moved s p b b' -> moved s p v v' ->
  box_moved s p (CheckExtends b v) (CheckExtends b' v').
Proof.
  intros Hs [(Hx & Hy & Hz) (Kx & Ky & Kz)] (Vx & Vy & Vz).
  unfold box_moved, moved, veq, CheckExtends, affine in *; simpl in *.
  repeat split;
    first [ apply Qmin_affine; assumption | apply Qmax_affine; assumption ].
Qed.

Lemma fold_CheckExtends_moved (s : Q) (p : Vector3) (pts pts' : list Vector3) :
  0 < s -> Forall2 (moved s p) pts pts' ->
  forall b b', box_moved s p b b' ->
    box_moved s p (fold_left CheckExtends pts b) (fold_left CheckExtends pts' b').
Proof.
  intros Hs HF. induction HF as [|v v' l l' Hv _ IH]; intros b b' Hb; simpl.
  - exact Hb.
  - apply IH. apply CheckExtends_moved; assumption.
Qed.

(** The box around moved points is the moved box. *)
Lemma extents_moved (s : Q) (p : Vector3) (pts pts' : list Vector3) :
  0 < s -> pts <> [] -> Forall2 (moved s p) pts pts' ->
  box_moved s p (extents pts) (extents pts').
Proof.
  intros Hs Hne HF. destruct HF as [|v v' l l' Hv HF]; [congruence|].
  simpl. apply fold_CheckExtends_moved; try assumption.
  split; exact Hv.
Qed.

Lemma maxDimensionOf_moved (s : Q) (p : Vector3) (b b' : BoundingVectors) :
  0 < s -> box_moved s p b b' ->
  maxDimensionOf b' == s * maxDimensionOf b.
Proof.
  intros Hs [(Hx & Hy & Hz) (Kx & Ky & Kz)].
  unfold maxDimensionOf, Math_max3, subtract, affine in *; simpl in *.
  assert (E : forall a a' c c', a' == s * a + 0 -> c' == s * c + 0 ->
                                Qmax a' c' == s * Qmax a c).
  { intros a a' c c' Ha Hc. rewrite (Qmax_affine s 0 a c a' c' Hs Ha Hc). ring. }
  apply E.
  - rewrite (E (x (bmax b) - x (bmin b)) _ (y (bmax b) - y (bmin b)) _).
    + ring.
    + rewrite Kx, Hx. ring.
    + rewrite Ky, Hy. ring.
  - rewrite Kz, Hz. ring.
Qed.

Lemma Center_moved (s : Q) (p : Vector3) (b b' : BoundingVectors) :
  box_moved s p b b' ->
  Center (bmin b') (bmax b') =v= affine s p (Center (bmin b) (bmax b)).
Proof.
  intros [(Hx & Hy & Hz) (Kx & Ky & Kz)].
  unfold veq, Center, affine in *; simpl in *.
  rewrite Hx, Hy, Hz, Kx, Ky, Kz. repeat split; field.
Qed.

(** Without points the box is inside out: its largest extent is negative. *)
Lemma maxDimensionOf_no_points : maxDimensionOf (extents []) < 0.
Proof.
  unfold maxDimensionOf, Math_max3, extents, subtract; simpl.
  pose proof MAX_VALUE_pos as H. generalize dependent MAX_VALUE. intros M H.
  repeat apply Q.max_lub_lt; lra.
Qed.

(** With at least one point no extent is negative. *)
Lemma fold_CheckExtends_ordered (pts : list Vector3) :
  forall b, x (bmin b) <= x (bmax b) ->
            x (bmin (fold_left CheckExtends pts b))
            <= x (bmax (fold_left CheckExtends pts b)).
Proof.
  induction pts as [|v l IH]; intros b Hb; simpl; [exact Hb|].
  apply IH. unfold CheckExtends; simpl.
  eapply Qle_trans; [apply Q.le_min_l|].
  eapply Qle_trans; [exact Hb|apply Q.le_max_l].
Qed.

Lemma maxDimensionOf_nonneg (pts : list Vector3) :
  pts <> [] -> 0 <= maxDimensionOf (extents pts).
Proof.
  intros Hne. destruct pts as [|v l]; [congruence|].
  unfold maxDimensionOf, Math_max3, subtract; simpl.
  pose proof (fold_CheckExtends_ordered l (mkBounds v v) (Qle_refl _)) as H.
  eapply Qle_trans; [|apply Q.le_max_l].
  eapply Qle_trans; [|apply Q.le_max_l]. lra.
Qed.

(** ** Stores *)

Lemma update_nth_length {A : Type} (f : A -> A) (l : list A) :
  forall i, List.length (update_nth i f l) = List.length l.
Proof.
  induction l as [|a l IH]; intros [|i]; simpl; auto.
Qed.

Lemma update_nth_app {A : Type} (f : A -> A) (pre : list A) (a : A) (post : list A) :
  update_nth (List.length pre) f (pre ++ a :: post) = pre ++ f a :: post.
Proof.
  induction pre as [|b pre IH]; simpl; [reflexivity|]. now rewrite IH.
Qed.

Lemma update_nth_Forall2 {A B : Type} (R : A -> B -> Prop) (f : B -> B) :
  (forall a b, R a b -> R a (f b)) ->
  forall l l' i, Forall2 R l l' -> Forall2 R l (update_nth i f l').
Proof.
  intros Hf l l' i HF. revert i.
  induction HF as [|a b l l' Hab HF IH]; intros [|i]; simpl; constructor; auto.
Qed.

Lemma forEach_from_Forall2 {A B : Type} (R : A -> B -> Prop) (f : nat -> B -> B) :
  (forall i a b, R a b -> R a (f i b)) ->
  forall ids index l l', Forall2 R l l' ->
                         Forall2 R l (forEach_from index f ids l').
Proof.
  intros Hf ids. induction ids as [|id ids IH]; intros index l l' HF; simpl.
  - exact HF.
  - apply IH. apply update_nth_Forall2; auto.
Qed.

Lemma forEach_from_length {A : Type} (f : nat -> A -> A) (ids : list nat) :
  forall index l, List.length (forEach_from index f ids l) = List.length l.
Proof.
  induction ids as [|id ids IH]; intros index l; simpl; [reflexivity|].
  now rewrite IH, update_nth_length.
Qed.

Lemma forEach_from_seq {A : Type} (f : nat -> A -> A) (l : list A) :
  forall index pre,
    forEach_from index f (seq (List.length pre) (List.length l)) (pre ++ l)
    = pre ++ mapi_from index f l.
Proof.
  induction l as [|a l IH]; intros index pre; simpl; [reflexivity|].
  rewrite update_nth_app.
  change (pre ++ f index a :: l) with (pre ++ [f index a] ++ l).
  rewrite app_assoc.
  replace (S (List.length pre)) with (List.length (pre ++ [f index a]))
    by (rewrite length_app; simpl; lia).
  rewrite IH, <- app_assoc. reflexivity.
Qed.

Lemma mapi_from_Forall2 {A : Type} (R : A -> A -> Prop) (f : nat -> A -> A) :
  (forall i a, R a (f i a)) ->
  forall l index, Forall2 R l (mapi_from index f l).
Proof.
  intros Hf l. induction l as [|a l IH]; intros index; simpl; constructor; auto.
Qed.

(** ** The pivot and the boxes measured around it *)

Lemma pivot_of_reparented (s : Scene) (ids : list nat) :
  nth (pivot_of s) (transformNodes (reparented s ids)) (new_TransformNode "")
  = new_TransformNode "modelPivot".
Proof.
  unfold reparented, pivot_of; simpl. apply nth_middle.
Qed.

Lemma transformNodes_normalized (s : Scene) (ids : list nat) :
  transformNodes (normalized s ids)
  = transformNodes s
    ++ [mkTransformNode "modelPivot"
          (let k := 10 / maxDimensionOf (preBounds s ids) in mkVector3 k k k)
          (Babylon.scale (Center (bmin (preBounds s ids)) (bmax (preBounds s ids)))
                         (- (10 / maxDimensionOf (preBounds s ids))))].
Proof.
  unfold normalized, scaled, on_node, reparented, pivot_of; simpl.
  rewrite !update_nth_app. reflexivity.
Qed.

Lemma meshes_normalized (s : Scene) (ids : list nat) :
  meshes (normalized s ids) = meshes (reparented s ids).
Proof. reflexivity. Qed.

(** ** Running the monad *)

Lemma bind_Normal {A B : Type} (m : Js A) (k : A -> Js B) (w : World) (a : A)
      (w' : World) :
  m w = Normal a w' -> bind m k w = k a w'.
Proof. intros H. unfold bind. now rewrite H. Qed.

Lemma bind_Abrupt {A B : Type} (m : Js A) (k : A -> Js B) (w : World) (e : Error)
      (w' : World) :
  m w = Abrupt e w' -> bind m k w = Abrupt e w'.
Proof. intros H. unfold bind. now rewrite H. Qed.

Lemma bind_call {B : Type} (env : Env) (st : Step) (k : unit -> Js B) (w : World) :
  throws env st = false -> bind (call env st) k w = k tt w.
Proof. intros Hq. apply bind_Normal. unfold call. now rewrite Hq. Qed.

Lemma bind_the_scene {B : Type} (k : Scene -> Js B) (w : World) (s : Scene) :
  scene w = Some s -> bind the_scene k w = k s w.
Proof. intros Hs. apply bind_Normal. unfold the_scene. now rewrite Hs. Qed.

(** Straight-line code in an environment where the calls at hand do not
    throw: unfold the monad and let the state flow. *)
Ltac run_js Hq :=
  repeat (progress
    (unfold bind, the_scene, call, on_scene, on_camera, on_engine, modify, ret,
            default_view;
     rewrite ?Hq;
     cbn [scene camera engine set_scene set_camera set_engine log
          set_handleResize set_resizeListeners
          handleResize console resizeListeners modelUrl canvasElement])).

Lemma default_view_ok (env : Env) (w : World) (c : ArcRotateCamera) :
  throws env SSetTarget = false -> camera w = Some c ->
  default_view env w = Normal tt (set_camera (Some (defaulted c)) w).
Proof.
  intros Hq Hc. destruct w as [url cv eng sc0 cam hr con ls]; simpl in Hc; subst.
  run_js Hq. reflexivity.
Qed.

Lemma pass_empty (env : Env) (w : World) (c : ArcRotateCamera) :
  throws env SSetTarget = false -> camera w = Some c ->
  normalization_pass env [] w
  = Normal tt (set_camera (Some (defaulted c))
                 (log (console_warn "No renderable meshes found (0 vertices)") w)).
Proof.
  intros Hq Hc. unfold normalization_pass; cbn [List.length Nat.ltb Nat.leb].
  rewrite (bind_Normal (modify (log (console_warn "No renderable meshes found (0 vertices)")))
                       _ w tt _ eq_refl).
  now rewrite (default_view_ok env _ c).
Qed.

(** *** The pass in an environment where no call throws *)

Section QuietPass.

Variable env : Env.
Hypothesis Hquiet : quiet env.

Lemma create_pivot_quiet (w : World) (s : Scene) (ids : list nat) :
  scene w = Some s ->
  create_pivot env ids w
  = Normal (pivot_of s) (set_scene (Some (reparented s ids)) w).
Proof.
  intros Hs. pose proof Hquiet as Hq. unfold quiet in Hq.
  destruct w as [url cv eng sc0 cam hr con ls]; simpl in Hs; subst.
  unfold create_pivot. run_js Hq. reflexivity.
Qed.

Lemma scale_and_frame_quiet (w : World) (s : Scene) (c : ArcRotateCamera)
      (ids : list nat) (k : nat) (center : Vector3) (m : Q) :
  scene w = Some s -> camera w = Some c ->
  scale_and_frame env ids k center m w
  = Normal tt
      (set_camera
         (Some (zoomed env (scaled s k center m) ids
                  (framed (maxDimensionOf
                             (getHierarchyBoundingVectors (scaled s k center m) k
                                                          hasVertices)) c)))
         (set_scene (Some (scaled s k center m)) w)).
Proof.
  intros Hs Hc. pose proof Hquiet as Hq. unfold quiet in Hq.
  destruct w as [url cv eng sc0 cam hr con ls]; simpl in Hs, Hc; subst.
  unfold scale_and_frame. run_js Hq. reflexivity.
Qed.

(** The pass up to the test of line 103. *)
Lemma pass_measured (w : World) (s : Scene) (ids : list nat) :
  scene w = Some s -> ids <> [] ->
  normalization_pass env ids w
  = (if Qlt_le_dec 0 (maxDimensionOf (preBounds s ids))
     then scale_and_frame env ids (pivot_of s)
            (Center (bmin (preBounds s ids)) (bmax (preBounds s ids)))
            (maxDimensionOf (preBounds s ids))
     else default_view env)
      (set_scene (Some (reparented s ids)) w).
Proof.
  intros Hs Hne. destruct ids as [|id ids]; [congruence|].
  unfold normalization_pass; cbn [List.length Nat.ltb Nat.leb].
  rewrite (bind_Normal _ _ _ _ _ (create_pivot_quiet w s _ Hs)).
  rewrite bind_call by apply Hquiet.
  rewrite (bind_the_scene _ _ (reparented s (id :: ids))) by reflexivity.
  reflexivity.
Qed.

(** The scaled branch, lines 104-131. *)
Lemma pass_scaled (w : World) (s : Scene) (c : ArcRotateCamera) (ids : list nat) :
  scene w = Some s -> camera w = Some c -> ids <> [] ->
  0 < maxDimensionOf (preBounds s ids) ->
  normalization_pass env ids w
  = Normal tt (set_camera
                 (Some (zoomed env (normalized s ids) ids
                          (framed (maxDimensionOf (postBounds s ids)) c)))
                 (set_scene (Some (normalized s ids)) w)).
Proof.
  intros Hs Hc Hne Hm. rewrite (pass_measured w s ids Hs Hne).
  destruct (Qlt_le_dec 0 (maxDimensionOf (preBounds s ids))) as [Hpos|Hle].
  - rewrite (scale_and_frame_quiet _ (reparented s ids) c);
      [reflexivity | reflexivity | exact Hc].
  - exfalso. apply (Qle_not_lt _ _ Hle). exact Hm.
Qed.

(** The branch of lines 133-134. *)
Lemma pass_flat (w : World) (s : Scene) (c : ArcRotateCamera) (ids : list nat) :
  scene w = Some s -> camera w = Some c -> ids <> [] ->
  ~ 0 < maxDimensionOf (preBounds s ids) ->
  normalization_pass env ids w
  = Normal tt (set_camera (Some (defaulted c))
                 (set_scene (Some (reparented s ids)) w)).
Proof.
  intros Hs Hc Hne Hm. rewrite (pass_measured w s ids Hs Hne).
  destruct (Qlt_le_dec 0 (maxDimensionOf (preBounds s ids))) as [Hpos|Hle].
  - contradiction.
  - now rewrite (default_view_ok env _ c) by (try apply Hquiet; exact Hc).
Qed.

(** The three ways the pass ends. *)
Lemma pass_outcome (w : World) (s : Scene) (c : ArcRotateCamera) (ids : list nat) :
  scene w = Some s -> camera w = Some c ->
  (ids = [] /\
   normalization_pass env ids w
   = Normal tt (set_camera (Some (defaulted c))
                  (log (console_warn "No renderable meshes found (0 vertices)") w)))
  \/
  (ids <> [] /\ ~ 0 < maxDimensionOf (preBounds s ids) /\
   normalization_pass env ids w
   = Normal tt (set_camera (Some (defaulted c))
                  (set_scene (Some (reparented s ids)) w)))
  \/
  (ids <> [] /\ 0 < maxDimensionOf (preBounds s ids) /\
   normalization_pass env ids w
   = Normal tt (set_camera
                  (Some (zoomed env (normalized s ids) ids
                           (framed (maxDimensionOf (postBounds s ids)) c)))
                  (set_scene (Some (normalized s ids)) w))).
Proof.
  intros Hs Hc. destruct ids as [|id ids].
  - left. split; [reflexivity|]. apply pass_empty; [apply Hquiet | exact Hc].
  - right. assert (Hne : id :: ids <> []) by discriminate.
    destruct (Qlt_le_dec 0 (maxDimensionOf (preBounds s (id :: ids)))) as [Hpos|Hle].
    + right. repeat split; try assumption. now apply pass_scaled.
    + left. assert (Hn : ~ 0 < maxDimensionOf (preBounds s (id :: ids)))
        by (apply Qle_not_lt; exact Hle).
      repeat split; try assumption. now apply pass_flat.
Qed.

End QuietPass.

(** ** The boxes before and after scaling *)

Lemma pivot_of_normalized (s : Scene) (ids : list nat) :
  nth_error (transformNodes (normalized s ids)) (pivot_of s)
  = Some (mkTransformNode "modelPivot"
            (let k := 10 / maxDimensionOf (preBounds s ids) in mkVector3 k k k)
            (Babylon.scale
               (Center (bmin (preBounds s ids)) (bmax (preBounds s ids)))
               (- (10 / maxDimensionOf (preBounds s ids))))).
Proof.
  rewrite transformNodes_normalized. unfold pivot_of.
  rewrite nth_error_app2 by lia. now rewrite Nat.sub_diag.
Qed.

Lemma pivot_of_reparented_error (s : Scene) (ids : list nat) :
  nth_error (transformNodes (reparented s ids)) (pivot_of s)
  = Some (new_TransformNode "modelPivot").
Proof.
  unfold reparented, pivot_of; simpl.
  rewrite nth_error_app2 by lia. now rewrite Nat.sub_diag.
Qed.

Lemma corners_moved (s : Scene) (ids : list nat) :
  let b := preBounds s ids in
  let k := 10 / maxDimensionOf b in
  Forall2 (moved k (Babylon.scale (Center (bmin b) (bmax b)) (- k)))
          (hierarchyCorners (reparented s ids) (pivot_of s) hasVertices)
          (hierarchyCorners (normalized s ids) (pivot_of s) hasVertices).
Proof.
  intros b k. unfold hierarchyCorners.
  rewrite meshes_normalized, pivot_of_reparented.
  rewrite (nth_error_nth _ _ _ (pivot_of_normalized s ids)).
  fold b k.
  induction (filter _ (meshes (reparented s ids))) as [|m l IH]; simpl.
  - constructor.
  - repeat constructor; try exact IH;
      unfold moved, veq, toWorld, affine; simpl; repeat split; ring.
Qed.

Lemma boxes_moved (s : Scene) (ids : list nat) :
  let b := preBounds s ids in
  let k := 10 / maxDimensionOf b in
  0 < maxDimensionOf b ->
  0 < k /\
  box_moved k (Babylon.scale (Center (bmin b) (bmax b)) (- k)) b (postBounds s ids).
Proof.
  intros b k Hm.
  assert (Hk : 0 < k) by (apply Qlt_shift_div_l; [exact Hm | lra]).
  split; [exact Hk|].
  apply extents_moved; [exact Hk | | apply corners_moved].
  intros Hnil. pose proof maxDimensionOf_no_points as Hneg.
  unfold b, preBounds, getHierarchyBoundingVectors in Hm.
  rewrite Hnil in Hm. lra.
Qed.

(** When the pivot has at least one measured corner, the test of line 103
    fails only for a box of extent 0. *)
Lemma flat_extent_zero (s : Scene) (ids : list nat) :
  hierarchyCorners (reparented s ids) (pivot_of s) hasVertices <> [] ->
  ~ 0 < maxDimensionOf (preBounds s ids) ->
  maxDimensionOf (preBounds s ids) == 0.
Proof.
  intros Hne Hn. pose proof (maxDimensionOf_nonneg _ Hne) as H0.
  unfold preBounds, getHierarchyBoundingVectors in *. lra.
Qed.

(** After scaling the largest extent is 10. *)
Lemma postBounds_extent (s : Scene) (ids : list nat) :
  0 < maxDimensionOf (preBounds s ids) ->
  maxDimensionOf (postBounds s ids) == 10.
Proof.
  intros Hm. destruct (boxes_moved s ids Hm) as [Hk Hbox].
  rewrite (maxDimensionOf_moved _ _ _ _ Hk Hbox). field. lra.
Qed.

(** ** Activation up to the normalization pass *)

Lemma subscribe_quiet (env : Env) (w : World) :
  throws env SListen = false -> subscribe env w = Normal tt (subscribed w).
Proof.
  intros Hq. destruct w as [url cv eng sc0 cam hr con ls].
  unfold subscribe. run_js Hq. reflexivity.
Qed.

Lemma onMount_guarded (env : Env) (url : string) :
  url <> ""%string ->
  onMount env (initial url true)
  = try_catch (mount_body env)
              (fun error => modify (log (console_error "Error loading model:" error)))
              (initial url true).
Proof.
  intros Hurl. unfold onMount; simpl.
  destruct (String.eqb_spec url "") as [E|_]; [contradiction|reflexivity].
Qed.

Section QuietActivation.

Variable env : Env.
Variable url : string.
Variable cm : list AbstractMesh.
Hypothesis Hquiet : quiet env.
Hypothesis Hload :
  LoadAssetContainerAsync env url = Resolves (Some (mkAssetContainer cm)).

Lemma setup_quiet : setup env (initial url true) = Normal tt (set_up env url).
Proof.
  pose proof Hquiet as Hq. unfold quiet in Hq.
  unfold setup, initial. run_js Hq. reflexivity.
Qed.

Lemma mount_body_quiet :
  mount_body env (initial url true)
  = (normalization_pass env (renderable (merged cm) (seq 0 (List.length cm))) ;;
     subscribe env)
      (ready env url cm).
Proof.
  pose proof Hquiet as Hq. unfold quiet in Hq. unfold mount_body.
  rewrite (bind_Normal _ _ _ _ _ setup_quiet).
  rewrite (bind_Normal (load env) _ _ (mkAssetContainer cm) (set_up env url))
    by (unfold load; simpl; now rewrite Hload).
  rewrite (bind_Normal (addAllToScene env (mkAssetContainer cm)) _ _
                       (seq 0 (List.length cm))
                       (set_scene (Some (merged cm)) (set_up env url)))
    by (unfold addAllToScene; run_js Hq; reflexivity).
  rewrite (bind_the_scene _ _ (merged cm)) by reflexivity.
  rewrite (bind_Normal (prepare_meshes env (seq 0 (List.length cm))) _ _ tt
                       (ready env url cm))
    by (unfold prepare_meshes; run_js Hq; reflexivity).
  reflexivity.
Qed.

(** With a successful load, activation ends with the outcome of the
    normalization pass plus the resize subscription. *)
Lemma onMount_quiet (w' : World) :
  url <> ""%string ->
  normalization_pass env (renderable (merged cm) (seq 0 (List.length cm)))
                     (ready env url cm)
  = Normal tt w' ->
  onMount env (initial url true) = Normal tt (subscribed w').
Proof.
  intros Hurl Hpass.
  rewrite (onMount_guarded env url Hurl). unfold try_catch.
  rewrite mount_body_quiet.
  rewrite (bind_Normal _ _ _ _ _ Hpass).
  now rewrite subscribe_quiet by apply Hquiet.
Qed.

End QuietActivation.

Lemma meshes_prepared (cm : list AbstractMesh) :
  meshes (prepared cm) = mapi_from 0 (prepare_mesh true) cm.
Proof.
  unfold prepared, merged, forEach; simpl.
  exact (forEach_from_seq (prepare_mesh true) cm 0 []).
Qed.

(* ================================================================== *)
(** * The normalization pass: scale and centre *)
(* ================================================================== *)

(** C1, as amended: for a non-empty set of render meshes whose box before
    scaling has a largest extent above 0, the pass ends normally and the
    pivot's scale is 10 / maxDimension on all three axes; with the arithmetic
    carried out exactly, the largest extent of the box measured around the
    pivot afterwards is 10. *)
Theorem pivot_scale_normalizes_extent (env : Env) (w : World) (s : Scene)
        (c : ArcRotateCamera) (renderMeshes : list nat) :
  quiet env -> scene w = Some s -> camera w = Some c -> renderMeshes <> [] ->
  0 < maxDimensionOf (preBounds s renderMeshes) ->
  exists w' s' pivot,
    normalization_pass env renderMeshes w = Normal tt w' /\
    scene w' = Some s' /\
    nth_error (transformNodes s') (pivot_of s) = Some pivot /\
    scaling pivot
    = (let k := 10 / maxDimensionOf (preBounds s renderMeshes) in mkVector3 k k k) /\
    maxDimensionOf (getHierarchyBoundingVectors s' (pivot_of s) hasVertices) == 10.
Proof.
  intros Hq Hs Hc Hne Hm.
  eexists _, (normalized s renderMeshes), _.
  split; [apply (pass_scaled env Hq w s c renderMeshes); assumption|].
  split; [reflexivity|].
  split; [apply pivot_of_normalized|].
  split; [reflexivity|].
  exact (postBounds_extent s renderMeshes Hm).
Qed.

Lemma pivot_scale_normalizes_extent_witness :
  exists w' s' pivot,
    normalization_pass example_env [0%nat] example_world = Normal tt w' /\
    scene w' = Some s' /\
    nth_error (transformNodes s') 0 = Some pivot /\
    scaling pivot
    = (let k := 10 / maxDimensionOf (preBounds (prepared [example_mesh]) [0%nat])
       in mkVector3 k k k) /\
    maxDimensionOf (getHierarchyBoundingVectors s' 0 hasVertices) == 10.
Proof.
  apply (pivot_scale_normalizes_extent example_env example_world
           (prepared [example_mesh]) (camera0 example_env) [0%nat]).
  - intros st. reflexivity.
  - reflexivity.
  - reflexivity.
  - discriminate.
  - vm_compute. reflexivity.
Defined.

(** C1, as stated, fails on binary64 numbers.  For a render mesh whose box
    runs from -1e308 to 1e308 on every axis the size of line 100 overflows:
    maxDimension is infinity, the test of line 103 passes, the scale
    10 / maxDimension is 0 on every axis, and the extent re-measured at
    lines 111-116 is 0, which is not within 1 of 10. *)
Lemma extent_lost_when_size_overflows :
  let outcome := Ieee.normalize [Ieee.huge_box] in
  Ieee.maxDimension outcome = PrimFloat.infinity /\
  PrimFloat.ltb PrimFloat.zero (Ieee.maxDimension outcome) = true /\
  Ieee.x (Ieee.scaling (Ieee.modelPivot outcome))
  = PrimFloat.div Ieee.ten (Ieee.maxDimension outcome) /\
  Ieee.scaling (Ieee.modelPivot outcome) = Ieee.Zero /\
  exists postMaxDimension,
    Ieee.postMaxDimension outcome = Some postMaxDimension /\
    postMaxDimension = PrimFloat.zero /\
    Ieee.near postMaxDimension Ieee.ten PrimFloat.one = false.
Proof.
  repeat split; try (vm_compute; reflexivity).
  exists PrimFloat.zero. repeat split; vm_compute; reflexivity.
Qed.

(** On the box of the worked example the binary64 arithmetic is exact:
    extent 4, scale 2.5, position (-2.5,-5,-2.5), extent 10 afterwards and
    radius 15. *)
Lemma example_exact_in_binary64 :
  Ieee.normalize [Ieee.example_box] = Ieee.example_outcome.
Proof. vm_compute. reflexivity. Qed.




(* ================================================================== *)
(** * The normalization pass: the camera *)
(* ================================================================== *)

Lemma example_renderable :
  renderable (merged [example_mesh]) (seq 0 (List.length [example_mesh])) = [0%nat].
Proof. reflexivity. Qed.

Lemma example_measured :
  0 < maxDimensionOf (preBounds (prepared [example_mesh]) [0%nat]).
Proof. vm_compute. reflexivity. Qed.

Lemma radius_zoomed (env : Env) (s : Scene) (ids : list nat) (c : ArcRotateCamera) :
  radius (zoomed env s ids c) = radius (zoomOn env c (deref ids (meshes s)) true).
Proof. reflexivity. Qed.

(** C3, as amended: with a largest extent above 0 before scaling, line 122
    assigns max(postMaxDimension * 1.5, 3) to the camera's radius, the camera
    carrying that radius is handed to the engine's [zoomOn] at line 130, and
    the pass ends with the radius [zoomOn] returns: it is
    max(postMaxDimension * 1.5, 3) when [zoomOn] leaves the radius as it
    finds it.  For a container holding the single mesh (0,0,0)-(2,4,2) the
    pivot's scale is 2.5, its position is (-2.5,-5,-2.5), the radius handed
    to [zoomOn] is 15, and so is the final one when [zoomOn] leaves the
    radius as it finds it. *)
Theorem camera_radius_before_zoomOn :
  (forall (env : Env) (w : World) (s : Scene) (c : ArcRotateCamera)
          (renderMeshes : list nat),
      quiet env -> scene w = Some s -> camera w = Some c -> renderMeshes <> [] ->
      0 < maxDimensionOf (preBounds s renderMeshes) ->
      exists w' s' cam,
        normalization_pass env renderMeshes w = Normal tt w' /\
        scene w' = Some s' /\
        camera w' = Some cam /\
        let postMaxDimension :=
          maxDimensionOf (getHierarchyBoundingVectors s' (pivot_of s) hasVertices) in
        let assigned := framed postMaxDimension c in
        radius assigned = Qmax (postMaxDimension * 1.5) 3 /\
        cam = zoomed env s' renderMeshes assigned /\
        radius cam
        = radius (zoomOn env assigned (deref renderMeshes (meshes s')) true) /\
        (zoom_keeps_radius env -> radius cam = Qmax (postMaxDimension * 1.5) 3))
  /\
  (forall (env : Env) (url : string),
      quiet env -> url <> ""%string ->
      LoadAssetContainerAsync env url
      = Resolves (Some (mkAssetContainer [example_mesh])) ->
      exists w' s' pivot assigned cam,
        onMount env (initial url true) = Normal tt w' /\
        scene w' = Some s' /\
        nth_error (transformNodes s') 0 = Some pivot /\
        scaling pivot =v= mkVector3 2.5 2.5 2.5 /\
        position pivot =v= mkVector3 (- 2.5) (- 5) (- 2.5) /\
        radius assigned == 15 /\
        camera w' = Some cam /\
        cam = zoomed env s' [0%nat] assigned /\
        (zoom_keeps_radius env -> radius cam == 15)).
Proof.
  split.
  - intros env w s c ids Hq Hs Hc Hne Hm.
    eexists _, (normalized s ids), _.
    split; [apply (pass_scaled env Hq w s c ids); assumption|].
    split; [reflexivity|]. split; [reflexivity|].
    split; [reflexivity|]. split; [reflexivity|].
    split; [apply radius_zoomed|].
    intros Hz. rewrite radius_zoomed. now rewrite Hz.
  - intros env url Hq Hurl Hload.
    pose proof (pass_scaled env Hq (ready env url [example_mesh])
                  (prepared [example_mesh]) (camera0 env) [0%nat] eq_refl eq_refl
                  ltac:(discriminate) example_measured) as Hpass.
    rewrite <- example_renderable in Hpass at 1.
    assert (Hr : radius (framed (maxDimensionOf
                                   (postBounds (prepared [example_mesh]) [0%nat]))
                                (camera0 env)) == 15)
      by (vm_compute; reflexivity).
    eexists _, (normalized (prepared [example_mesh]) [0%nat]), _,
      (framed (maxDimensionOf (postBounds (prepared [example_mesh]) [0%nat]))
              (camera0 env)), _.
    split; [exact (onMount_quiet env url _ Hq Hload _ Hurl Hpass)|].
    split; [reflexivity|].
    split; [exact (pivot_of_normalized (prepared [example_mesh]) [0%nat])|].
    split; [repeat split; vm_compute; reflexivity|].
    split; [repeat split; vm_compute; reflexivity|].
    split; [exact Hr|].
    split; [reflexivity|]. split; [reflexivity|].
    intros Hz. rewrite radius_zoomed, Hz. exact Hr.
Qed.

Lemma zoom_id_keeps_radius (ms : list AbstractMesh) : zoom_keeps_radius (serving ms).
Proof. intros c l. reflexivity. Qed.

Lemma camera_radius_before_zoomOn_witness :
  (exists w' s' cam,
      normalization_pass example_env [0%nat] example_world = Normal tt w' /\
      scene w' = Some s' /\
      camera w' = Some cam /\
      let postMaxDimension :=
        maxDimensionOf (getHierarchyBoundingVectors s' 0 hasVertices) in
      let assigned := framed postMaxDimension (camera0 example_env) in
      radius assigned = Qmax (postMaxDimension * 1.5) 3 /\
      cam = zoomed example_env s' [0%nat] assigned /\
      radius cam
      = radius (zoomOn example_env assigned (deref [0%nat] (meshes s')) true) /\
      (zoom_keeps_radius example_env ->
       radius cam = Qmax (postMaxDimension * 1.5) 3))
  /\
  (exists w' s' pivot assigned cam,
      onMount (serving [example_mesh]) (initial "model.glb" true)
      = Normal tt w' /\
      scene w' = Some s' /\
      nth_error (transformNodes s') 0 = Some pivot /\
      scaling pivot =v= mkVector3 2.5 2.5 2.5 /\
      position pivot =v= mkVector3 (- 2.5) (- 5) (- 2.5) /\
      radius assigned == 15 /\
      camera w' = Some cam /\
      cam = zoomed (serving [example_mesh]) s' [0%nat] assigned /\
      radius cam == 15).
Proof.
  split.
  - apply (proj1 camera_radius_before_zoomOn example_env example_world
                 (prepared [example_mesh]) (camera0 example_env) [0%nat]).
    + intros st. reflexivity.
    + reflexivity.
    + reflexivity.
    + discriminate.
    + vm_compute. reflexivity.
  - destruct (proj2 camera_radius_before_zoomOn (serving [example_mesh])
                    "model.glb"%string)
      as (w' & s' & pivot & assigned & cam & Hrun & Hs & Hp & Hsc & Hpos & Hr
          & Hcam & Hz & Hkeep).
    + intros st. reflexivity.
    + discriminate.
    + reflexivity.
    + exists w', s', pivot, assigned, cam.
      repeat split; try assumption; try apply Hsc; try apply Hpos.
      apply Hkeep. apply zoom_id_keeps_radius.
Defined.

(** C3, as stated, fails: the radius of line 122 does not survive line 130
    when [zoomOn] re-frames the camera, as the engine's does.  For the single
    mesh (0,0,0)-(2,4,2) the pivot's scale is 2.5 and its position
    (-2.5,-5,-2.5), but activation ends with the camera at the distance
    [zoomOn] chose, 15.7253, which is neither 15 nor
    max(postMaxDimension * 1.5, 3). *)
Lemma radius_replaced_by_zoomOn :
  exists w' s' pivot cam,
    onMount (serving_framed [example_mesh]) (initial "model.glb" true)
    = Normal tt w' /\
    scene w' = Some s' /\
    nth_error (transformNodes s') 0 = Some pivot /\
    scaling pivot =v= mkVector3 2.5 2.5 2.5 /\
    position pivot =v= mkVector3 (- 2.5) (- 5) (- 2.5) /\
    camera w' = Some cam /\
    radius cam == 15.7253 /\
    ~ radius cam == 15 /\
    ~ radius cam
      == Qmax (maxDimensionOf (getHierarchyBoundingVectors s' 0 hasVertices) * 1.5) 3.
Proof.
  eexists _, _, _, _.
  split; [vm_compute; reflexivity|].
  split; [reflexivity|].
  split; [reflexivity|].
  split; [repeat split; vm_compute; reflexivity|].
  split; [repeat split; vm_compute; reflexivity|].
  split; [reflexivity|].
  split; [vm_compute; reflexivity|].
  split; intros H; vm_compute in H; discriminate.
Qed.

Lemma framed_upper_limit (pm : Q) :
  8 <= Qmax (Qmax (pm * 1.5) 3 * 4) (Qmax (pm * 1.5) 3 + 5).
Proof.
  eapply Qle_trans; [|apply Q.le_max_r].
  pose proof (Q.le_max_r (pm * 1.5) 3). lra.
Qed.

Lemma zoomed_framed_ordered (env : Env) (s : Scene) (ids : list nat) (pm : Q)
      (c : ArcRotateCamera) :
  zoom_keeps_limits env -> limits_ordered (zoomed env s ids (framed pm c)).
Proof.
  intros Hz. unfold zoomed.
  destruct (Hz (framed pm c) (deref ids (meshes s))) as (Hlo & Hhi & Hmin).
  pose proof (framed_upper_limit pm) as Hup.
  exists 0.01, (Qmax (Qmax (pm * 1.5) 3 * 4) (Qmax (pm * 1.5) 3 + 5)).
  cbn [lowerRadiusLimit upperRadiusLimit minZ maxZ set_maxZ].
  rewrite Hlo, Hhi, Hmin. cbn -[Qmax Qle Qmult Qplus].
  repeat split; lra.
Qed.

Lemma defaulted_ordered (c : ArcRotateCamera) :
  limits_ordered c -> limits_ordered (defaulted c).
Proof. intros H. exact H. Qed.

Lemma pass_limits_ordered (env : Env) (w : World) (s : Scene)
      (c : ArcRotateCamera) (ids : list nat) :
  quiet env -> zoom_keeps_limits env ->
  scene w = Some s -> camera w = Some c -> limits_ordered c ->
  exists w' c',
    normalization_pass env ids w = Normal tt w' /\
    camera w' = Some c' /\ limits_ordered c'.
Proof.
  intros Hq Hz Hs Hc Hord.
  destruct (pass_outcome env Hq w s c ids Hs Hc)
    as [[_ H]|[(_ & _ & H)|(_ & _ & H)]];
    rewrite H; eexists _, _; (split; [reflexivity|]); (split; [reflexivity|]).
  - now apply defaulted_ordered.
  - now apply defaulted_ordered.
  - now apply zoomed_framed_ordered.
Qed.

(** C4: whichever branch the normalization pass takes, the camera it leaves
    has its lower radius limit at or below the upper one and its near plane
    at or below its far plane.  The engine is taken to hand out cameras whose
    default near plane is not beyond the far one and to leave limits and
    near plane alone in [zoomOn]. *)
Theorem camera_limits_ordered (env : Env) (url : string) (cm : list AbstractMesh) :
  quiet env -> zoom_keeps_limits env -> default_minZ env <= default_maxZ env ->
  url <> ""%string ->
  LoadAssetContainerAsync env url = Resolves (Some (mkAssetContainer cm)) ->
  exists w' cam lo hi,
    onMount env (initial url true) = Normal tt w' /\
    camera w' = Some cam /\
    lowerRadiusLimit cam = Some lo /\ upperRadiusLimit cam = Some hi /\
    lo <= hi /\ minZ cam <= maxZ cam.
Proof.
  intros Hq Hz Hdef Hurl Hload.
  assert (H0 : limits_ordered (camera0 env)).
  { exists 0.1, 1000. repeat split; try reflexivity; [lra | exact Hdef]. }
  destruct (pass_limits_ordered env (ready env url cm)
              (prepared cm) (camera0 env)
              (renderable (merged cm) (seq 0 (List.length cm)))
              Hq Hz eq_refl eq_refl H0)
    as (w' & c' & Hpass & Hcam & lo & hi & Hlo & Hhi & Hle & Hz').
  exists (subscribed w'), c', lo, hi.
  split; [exact (onMount_quiet env url cm Hq Hload w' Hurl Hpass)|].
  repeat split; assumption.
Qed.

Lemma zoom_id_keeps_limits (ms : list AbstractMesh) : zoom_keeps_limits (serving ms).
Proof. intros c l. repeat split. Qed.

Lemma zoom_back_keeps_limits (ms : list AbstractMesh) :
  zoom_keeps_limits (serving_back ms).
Proof. intros c l. repeat split. Qed.

Lemma camera_limits_ordered_witness :
  (exists w' cam lo hi,
      onMount (serving_back [example_mesh]) (initial "model.glb" true)
      = Normal tt w' /\
      camera w' = Some cam /\
      lowerRadiusLimit cam = Some lo /\ upperRadiusLimit cam = Some hi /\
      lo <= hi /\ minZ cam <= maxZ cam)
  /\
  (exists w' cam lo hi,
      onMount (serving [point_mesh]) (initial "point.glb" true) = Normal tt w' /\
      camera w' = Some cam /\
      lowerRadiusLimit cam = Some lo /\ upperRadiusLimit cam = Some hi /\
      lo <= hi /\ minZ cam <= maxZ cam)
  /\
  (exists w' cam lo hi,
      onMount (serving []) (initial "empty.glb" true) = Normal tt w' /\
      camera w' = Some cam /\
      lowerRadiusLimit cam = Some lo /\ upperRadiusLimit cam = Some hi /\
      lo <= hi /\ minZ cam <= maxZ cam).
Proof.
  repeat split.
  - apply (camera_limits_ordered (serving_back [example_mesh]) "model.glb"%string
                                 [example_mesh]).
    + intros st. reflexivity.
    + apply zoom_back_keeps_limits.
    + vm_compute. discriminate.
    + discriminate.
    + reflexivity.
  - apply (camera_limits_ordered (serving [point_mesh]) "point.glb"%string
                                 [point_mesh]).
    + intros st. reflexivity.
    + apply zoom_id_keeps_limits.
    + vm_compute. discriminate.
    + discriminate.
    + reflexivity.
  - apply (camera_limits_ordered (serving []) "empty.glb"%string []).
    + intros st. reflexivity.
    + apply zoom_id_keeps_limits.
    + vm_compute. discriminate.
    + discriminate.
    + reflexivity.
Defined.

(* ================================================================== *)
(** * The normalization pass: the fallbacks *)
(* ================================================================== *)

Lemma renderable_none (s : Scene) (containerMeshes : list nat) :
  (forall id m, In id containerMeshes -> nth_error (meshes s) id = Some m ->
                totalVertices m = 0%nat) ->
  renderable s containerMeshes = [].
Proof.
  intros H. unfold renderable.
  induction containerMeshes as [|id ids IH]; simpl; [reflexivity|].
  destruct (nth_error (meshes s) id) as [m|] eqn:E.
  - unfold hasVertices. rewrite (H id m (or_introl eq_refl) E). simpl.
    apply IH. intros id' m' Hin. apply H. now right.
  - apply IH. intros id' m' Hin. apply H. now right.
Qed.

(** C5: when no mesh of the container has a vertex, the pass logs the
    warning, aims the camera at the origin from distance 10 and leaves the
    scene as it was: no pivot node, no scaling. *)
Theorem empty_set_fallback (env : Env) (w : World) (s : Scene)
        (c : ArcRotateCamera) (containerMeshes : list nat) :
  throws env SSetTarget = false -> scene w = Some s -> camera w = Some c ->
  (forall id m, In id containerMeshes -> nth_error (meshes s) id = Some m ->
                totalVertices m = 0%nat) ->
  exists w' cam,
    normalization_pass env (renderable s containerMeshes) w = Normal tt w' /\
    console w'
    = console w ++ [console_warn "No renderable meshes found (0 vertices)"] /\
    camera w' = Some cam /\ target cam = Zero /\ radius cam = 10 /\
    scene w' = scene w.
Proof.
  intros Hq Hs Hc Hnone. rewrite (renderable_none s containerMeshes Hnone).
  eexists _, _. split; [apply (pass_empty env w c Hq Hc)|].
  repeat split.
Qed.

Lemma empty_set_fallback_witness :
  exists w' cam,
    normalization_pass (serving [hollow_mesh])
                       (renderable (prepared [hollow_mesh]) [0%nat]) hollow_world
    = Normal tt w' /\
    console w' = [console_warn "No renderable meshes found (0 vertices)"] /\
    camera w' = Some cam /\ target cam = Zero /\ radius cam = 10 /\
    scene w' = Some (prepared [hollow_mesh]).
Proof.
  apply (empty_set_fallback (serving [hollow_mesh]) hollow_world
           (prepared [hollow_mesh]) (camera0 (serving [hollow_mesh])) [0%nat]).
  - reflexivity.
  - reflexivity.
  - reflexivity.
  - intros id m [<-|[]] E. vm_compute in E. injection E as <-. reflexivity.
Defined.

(** C6: with render meshes whose box has largest extent 0, the pass creates
    the pivot but never scales or moves it (the division of line 105 is not
    reached), and the camera looks at the origin from distance 10. *)
Theorem flat_set_skips_scaling (env : Env) (w : World) (s : Scene)
        (c : ArcRotateCamera) (renderMeshes : list nat) :
  quiet env -> scene w = Some s -> camera w = Some c -> renderMeshes <> [] ->
  maxDimensionOf (preBounds s renderMeshes) == 0 ->
  exists w' s' pivot cam,
    normalization_pass env renderMeshes w = Normal tt w' /\
    scene w' = Some s' /\
    nth_error (transformNodes s') (pivot_of s) = Some pivot /\
    scaling pivot = One /\ position pivot = Zero /\
    camera w' = Some cam /\ target cam = Zero /\ radius cam = 10.
Proof.
  intros Hq Hs Hc Hne Hm.
  assert (Hn : ~ 0 < maxDimensionOf (preBounds s renderMeshes)) by lra.
  eexists _, (reparented s renderMeshes), _, _.
  split; [apply (pass_flat env Hq w s c renderMeshes); assumption|].
  split; [reflexivity|].
  split; [apply pivot_of_reparented_error|].
  repeat split.
Qed.

Lemma flat_set_skips_scaling_witness :
  exists w' s' pivot cam,
    normalization_pass (serving [point_mesh]) [0%nat] point_world = Normal tt w' /\
    scene w' = Some s' /\
    nth_error (transformNodes s') 0 = Some pivot /\
    scaling pivot = One /\ position pivot = Zero /\
    camera w' = Some cam /\ target cam = Zero /\ radius cam = 10.
Proof.
  apply (flat_set_skips_scaling (serving [point_mesh]) point_world
           (prepared [point_mesh]) (camera0 (serving [point_mesh])) [0%nat]).
  - intros st. reflexivity.
  - reflexivity.
  - reflexivity.
  - discriminate.
  - vm_compute. reflexivity.
Defined.

(* ================================================================== *)
(** * Mesh preparation *)
(* ================================================================== *)

Create HintDb viewer.

Lemma prepare_mesh_shown (index : nat) (m0 : AbstractMesh) :
  shown m0 (prepare_mesh true index m0).
Proof.
  destruct m0 as [tv en vis [mt|] par lo hi]; unfold shown, prepare_mesh; simpl.
  - repeat split.
  - repeat split. eexists. repeat split.
Qed.

Lemma setParent_shown (node : nat) (m0 m : AbstractMesh) :
  shown m0 m -> shown m0 (setParent node m).
Proof. intros H. exact H. Qed.

#[local] Hint Resolve prepare_mesh_shown setParent_shown : viewer.

Lemma reparented_shown (cm : list AbstractMesh) (s : Scene) (ids : list nat) :
  Forall2 shown cm (meshes s) -> Forall2 shown cm (meshes (reparented s ids)).
Proof.
  intros H. unfold reparented, forEach; simpl.
  apply forEach_from_Forall2; auto with viewer.
Qed.

#[local] Hint Resolve reparented_shown : viewer.

(** C7: after activation every mesh of the container, whatever its vertex
    count, is enabled and visible; a mesh that came without material carries
    a fresh opaque material of diffuse colour (0.8, 0.8, 0.8), a mesh that
    came with one still carries it. *)
Theorem meshes_shown_with_material (env : Env) (url : string)
        (cm : list AbstractMesh) :
  quiet env -> url <> ""%string ->
  LoadAssetContainerAsync env url = Resolves (Some (mkAssetContainer cm)) ->
  exists w' s',
    onMount env (initial url true) = Normal tt w' /\
    scene w' = Some s' /\
    Forall2 shown cm (meshes s').
Proof.
  intros Hq Hurl Hload.
  assert (Hprep : Forall2 shown cm (meshes (prepared cm))).
  { rewrite meshes_prepared. apply mapi_from_Forall2. auto with viewer. }
  destruct (pass_outcome env Hq (ready env url cm) (prepared cm) (camera0 env)
              (renderable (merged cm) (seq 0 (List.length cm)))
              eq_refl eq_refl)
    as [[_ H]|[(_ & _ & H)|(_ & _ & H)]];
    eexists _, _;
    (split; [exact (onMount_quiet env url cm Hq Hload _ Hurl H)|]);
    (split; [reflexivity|]).
  - exact Hprep.
  - auto with viewer.
  - rewrite meshes_normalized. auto with viewer.
Qed.

Lemma meshes_shown_with_material_witness :
  exists w' s',
    onMount (serving [example_mesh; painted_mesh]) (initial "model.glb" true)
    = Normal tt w' /\
    scene w' = Some s' /\
    Forall2 shown [example_mesh; painted_mesh] (meshes s').
Proof.
  apply (meshes_shown_with_material (serving [example_mesh; painted_mesh])
                                    "model.glb"%string).
  - intros st. reflexivity.
  - discriminate.
  - reflexivity.
Defined.

(* ================================================================== *)
(** * Lifecycle *)
(* ================================================================== *)

Ltac run_destroy :=
  unfold onDestroy, when_set, unsubscribe, detachControl, disposeEngine,
         disposeScene, bind, call, on_camera, on_engine, on_scene;
  cbn [scene camera engine set_scene set_camera set_engine
       set_resizeListeners handleResize console resizeListeners].

(** C8: every release step of [onDestroy] sits behind its own null guard.
    With all four handles absent no call is made and the world is returned
    unchanged, whatever the environment.  In general, as long as the release
    calls themselves do not throw, [onDestroy] ends normally and each handle
    that is present is released, whichever of the others are absent. *)
Theorem onDestroy_guards :
  (forall (env : Env) (w : World),
      handleResize w = None -> camera w = None -> engine w = None ->
      scene w = None ->
      onDestroy env w = Normal tt w)
  /\
  (forall (env : Env) (w : World),
      releases_quiet env ->
      exists w',
        onDestroy env w = Normal tt w' /\
        resizeListeners w'
        = match handleResize w with
          | Some h => removeEventListener h (resizeListeners w)
          | None => resizeListeners w
          end /\
        camera w' = option_map (set_controlAttached false) (camera w) /\
        engine w' = option_map dispose_engine (engine w) /\
        scene w' = option_map dispose_scene (scene w)).
Proof.
  split.
  - intros env [url cv eng sc cam hr con ls]; simpl.
    intros -> -> -> ->. reflexivity.
  - intros env [url cv eng sc cam hr con ls] (H1 & H2 & H3 & H4).
    destruct hr as [h|], cam as [c|], eng as [e|], sc as [s|];
      run_destroy; rewrite ?H1, ?H2, ?H3, ?H4;
      run_destroy; rewrite ?H1, ?H2, ?H3, ?H4;
      eexists; repeat split.
Qed.

Lemma onDestroy_guards_witness :
  onDestroy example_env (initial "model.glb" true)
  = Normal tt (initial "model.glb" true)
  /\
  exists w',
    onDestroy example_env engine_only = Normal tt w' /\
    resizeListeners w' = [] /\
    camera w' = None /\
    engine w' = Some (dispose_engine engine0) /\
    scene w' = None.
Proof.
  split.
  - apply (proj1 onDestroy_guards example_env (initial "model.glb" true));
      reflexivity.
  - apply (proj2 onDestroy_guards example_env engine_only).
    repeat split.
Defined.

(** C9: [onMount] never ends abruptly.  Whatever call of the guarded body
    throws, and whatever the loader yields, the handler of line 148 logs the
    error and the world is the one reached at the throw plus that one
    console entry. *)
Theorem onMount_never_throws (env : Env) (w : World) :
  exists w',
    onMount env w = Normal tt w' /\
    (forall e wp,
        canvasElement w = true -> modelUrl w <> ""%string ->
        mount_body env w = Abrupt e wp ->
        w' = log (console_error "Error loading model:" e) wp).
Proof.
  unfold onMount, try_catch.
  destruct (canvasElement w) eqn:Hcv; simpl.
  - destruct (String.eqb_spec (modelUrl w) "") as [Hurl|Hurl].
    + exists w. split; [reflexivity|]. intros e wp _ Hne. contradiction.
    + destruct (mount_body env w) as [[] w1|e1 w1] eqn:Hbody.
      * exists w1. split; [reflexivity|]. intros e wp _ _ H. discriminate.
      * eexists. split; [reflexivity|].
        intros e wp _ _ H. injection H as <- <-. reflexivity.
  - exists w. split; [reflexivity|]. intros e wp H. discriminate.
Qed.

Lemma onMount_never_throws_witness :
  (exists w',
      onMount rejecting (initial "model.glb" true) = Normal tt w' /\
      console w' = [console_error "Error loading model:" LoadRejected] /\
      engine w' = Some engine0 /\ scene w' = Some scene0 /\
      camera w' = Some (camera0 rejecting) /\
      handleResize w' = None /\ resizeListeners w' = [])
  /\
  (exists w',
      onMount zoom_failing (initial "model.glb" true) = Normal tt w' /\
      console w' = [console_error "Error loading model:" (EngineFault SZoomOn)] /\
      handleResize w' = None).
Proof.
  split.
  - destruct (onMount_never_throws rejecting (initial "model.glb" true))
      as (w' & Hrun & Hlog).
    exists w'. split; [exact Hrun|].
    rewrite (Hlog LoadRejected (set_up rejecting "model.glb") eq_refl
                  ltac:(discriminate) eq_refl).
    repeat split.
  - destruct (onMount_never_throws zoom_failing (initial "model.glb" true))
      as (w' & Hrun & Hlog).
    exists w'. split; [exact Hrun|].
    assert (Hb : exists wp, mount_body zoom_failing (initial "model.glb" true)
                            = Abrupt (EngineFault SZoomOn) wp
                            /\ console wp = [] /\ handleResize wp = None).
    { eexists. split; [vm_compute; reflexivity|]. split; reflexivity. }
    destruct Hb as (wp & Hb & Hcon & Hhr).
    rewrite (Hlog _ wp eq_refl ltac:(discriminate) Hb).
    simpl. rewrite Hcon, Hhr. split; reflexivity.
Defined.

(** C10: with an empty URL or an unbound canvas [onMount] returns at line 35:
    the world is untouched, so no engine, scene, camera, light or listener
    exists and the console is as it was. *)
Theorem onMount_early_return (env : Env) (w : World) :
  canvasElement w = false \/ modelUrl w = ""%string ->
  onMount env w = Normal tt w.
Proof.
  intros [H|H]; unfold onMount; rewrite H; simpl; [reflexivity|].
  now rewrite orb_true_r.
Qed.

Lemma onMount_early_return_witness :
  onMount zoom_failing (initial "" true) = Normal tt (initial "" true)
  /\ onMount zoom_failing (initial "model.glb" false)
     = Normal tt (initial "model.glb" false).
Proof.
  split.
  - apply (onMount_early_return zoom_failing (initial "" true)).
    right. reflexivity.
  - apply (onMount_early_return zoom_failing (initial "model.glb" false)).
    left. reflexivity.
Defined.

(* ================================================================== *)
(** * The meshes activation leaves behind *)
(* ================================================================== *)

Lemma nth_error_update_nth {A : Type} (f : A -> A) (l : list A) :
  forall i j,
    nth_error (update_nth i f l) j
    = if (i =? j)%nat then option_map f (nth_error l j) else nth_error l j.
Proof.
  induction l as [|a l IH]; intros i j.
  - destruct i, j; simpl; try reflexivity; now destruct (i =? j)%nat.
  - destruct i as [|i], j as [|j]; simpl; try reflexivity. apply IH.
Qed.

(** A loop that applies the same idempotent update to the listed objects. *)
Lemma nth_error_forEach_const {A : Type} (g : A -> A) :
  (forall a, g (g a) = g a) ->
  forall ids index l j,
    nth_error (forEach_from index (fun _ => g) ids l) j
    = if existsb (Nat.eqb j) ids then option_map g (nth_error l j)
      else nth_error l j.
Proof.
  intros Hg ids. induction ids as [|id ids IH]; intros index l j; simpl.
  - reflexivity.
  - rewrite IH, nth_error_update_nth.
    rewrite (Nat.eqb_sym j id).
    destruct (id =? j)%nat; simpl.
    + destruct (nth_error l j) as [a|]; simpl; [|now destruct (existsb _ ids)].
      rewrite Hg. now destruct (existsb _ ids).
    + reflexivity.
Qed.

Lemma nth_error_mapi_from {A : Type} (f : nat -> A -> A) (l : list A) :
  forall index j,
    nth_error (mapi_from index f l) j
    = option_map (f (index + j)%nat) (nth_error l j).
Proof.
  induction l as [|a l IH]; intros index [|j]; simpl; try reflexivity.
  - now rewrite Nat.add_0_r.
  - rewrite IH. now rewrite Nat.add_succ_r.
Qed.

(** Line 79 selects position [j] exactly when the mesh there has vertices. *)
Lemma existsb_renderable (cm : list AbstractMesh) (j : nat) (m0 : AbstractMesh) :
  nth_error cm j = Some m0 ->
  existsb (Nat.eqb j) (renderable (merged cm) (seq 0 (List.length cm)))
  = hasVertices m0.
Proof.
  intros Hj.
  assert (Hlt : (j < List.length cm)%nat)
    by (apply nth_error_Some; congruence).
  destruct (hasVertices m0) eqn:Hv.
  - apply existsb_exists. exists j. split; [|apply Nat.eqb_refl].
    unfold renderable. apply filter_In. split.
    + apply in_seq. lia.
    + simpl. now rewrite Hj.
  - apply not_true_is_false. intros H.
    apply existsb_exists in H. destruct H as (i & Hin & Heq).
    apply Nat.eqb_eq in Heq. subst i.
    unfold renderable in Hin. apply filter_In in Hin. destruct Hin as [_ Hin].
    simpl in Hin. rewrite Hj in Hin. congruence.
Qed.

Lemma setParent_idempotent (node : nat) (m : AbstractMesh) :
  setParent node (setParent node m) = setParent node m.
Proof. reflexivity. Qed.

(** Lines 80-93 as one pass over the container. *)
Lemma reparent_closed_form (cm : list AbstractMesh) :
  forEach (fun _ => setParent 0)
          (renderable (merged cm) (seq 0 (List.length cm)))
          (mapi_from 0 (prepare_mesh true) cm)
  = mapi_from 0 placed_mesh cm.
Proof.
  apply nth_error_ext. intros j. unfold forEach.
  rewrite (nth_error_forEach_const _ (setParent_idempotent 0)).
  rewrite !nth_error_mapi_from. simpl.
  destruct (nth_error cm j) as [m0|] eqn:Hj; simpl.
  - rewrite (existsb_renderable cm j m0 Hj). unfold placed_mesh.
    now destruct (hasVertices m0).
  - now destruct (existsb _ _).
Qed.

(** The scene of a successful activation holds the container's meshes in
    order, each prepared, and below the pivot when it has vertices; the
    scene is the one of the branch the pass took. *)
Lemma mounted_meshes (env : Env) (url : string) (cm : list AbstractMesh) :
  quiet env -> url <> ""%string ->
  LoadAssetContainerAsync env url = Resolves (Some (mkAssetContainer cm)) ->
  let ids := renderable (merged cm) (seq 0 (List.length cm)) in
  exists w' s',
    onMount env (initial url true) = Normal tt w' /\
    scene w' = Some s' /\
    meshes s' = mapi_from 0 placed_mesh cm /\
    (ids = [] /\ s' = prepared cm \/
     ids <> [] /\ s' = reparented (prepared cm) ids \/
     ids <> [] /\ s' = normalized (prepared cm) ids /\
     0 < maxDimensionOf (preBounds (prepared cm) ids)).
Proof.
  intros Hq Hurl Hload ids.
  pose proof (reparent_closed_form cm) as Hclosed.
  rewrite <- meshes_prepared in Hclosed. fold ids in Hclosed.
  destruct (pass_outcome env Hq (ready env url cm) (prepared cm) (camera0 env)
              ids eq_refl eq_refl)
    as [[He H]|[(Hne & _ & H)|(Hne & Hm & H)]];
    eexists _, _;
    (split; [exact (onMount_quiet env url cm Hq Hload _ Hurl H)|]);
    (split; [reflexivity|]).
  - split; [|left; now split]. rewrite He in Hclosed. exact Hclosed.
  - split; [exact Hclosed | right; left; now split].
  - split; [exact Hclosed | right; right; repeat split; assumption].
Qed.

Lemma renderable_nil_iff (cm : list AbstractMesh) :
  renderable (merged cm) (seq 0 (List.length cm)) = []
  <-> existsb hasVertices cm = false.
Proof.
  split.
  - intros Hnil. apply not_true_is_false. intros Hex.
    apply existsb_exists in Hex. destruct Hex as (m0 & Hin & Hv).
    destruct (In_nth_error _ _ Hin) as [j Hj].
    pose proof (existsb_renderable cm j m0 Hj) as H.
    rewrite Hnil, Hv in H. discriminate.
  - intros Hex. apply renderable_none. intros id m _ Hid. simpl in Hid.
    assert (Hv : hasVertices m = false).
    { destruct (hasVertices m) eqn:Hv; [|reflexivity].
      assert (existsb hasVertices cm = true)
        by (apply existsb_exists; exists m; split;
            [eapply nth_error_In; eassumption | assumption]).
      congruence. }
    unfold hasVertices in Hv. apply Nat.ltb_ge in Hv. lia.
Qed.

Lemma mapi_from_length {A : Type} (f : nat -> A -> A) (l : list A) :
  forall index, List.length (mapi_from index f l) = List.length l.
Proof.
  induction l as [|a l IH]; intros index; simpl; [reflexivity|]. now rewrite IH.
Qed.

Lemma prepare_mesh_keeps (b : bool) (index : nat) (m : AbstractMesh) :
  totalVertices (prepare_mesh b index m) = totalVertices m /\
  parent (prepare_mesh b index m) = parent m /\
  minimum (prepare_mesh b index m) = minimum m /\
  maximum (prepare_mesh b index m) = maximum m.
Proof.
  destruct m as [tv en vis [mt|] par lo hi], b; repeat split.
Qed.

Lemma placed_mesh_keeps (index : nat) (m0 : AbstractMesh) :
  totalVertices (placed_mesh index m0) = totalVertices m0 /\
  parent (placed_mesh index m0)
  = (if hasVertices m0 then Some 0%nat else parent m0) /\
  minimum (placed_mesh index m0) = minimum m0 /\
  maximum (placed_mesh index m0) = maximum m0.
Proof.
  unfold placed_mesh.
  destruct (prepare_mesh_keeps true index m0) as (Ht & Hp & Hlo & Hhi).
  destruct (hasVertices m0); simpl; repeat split; assumption.
Qed.

(** X1: after a successful activation the scene holds the container's meshes
    in order; a mesh hangs below the pivot exactly when it has vertices, a
    mesh without vertices keeps the parent it came with, and no mesh has its
    box or vertex count changed. *)
Theorem render_meshes_below_pivot (env : Env) (url : string)
        (cm : list AbstractMesh) :
  quiet env -> url <> ""%string ->
  LoadAssetContainerAsync env url = Resolves (Some (mkAssetContainer cm)) ->
  exists w' s',
    onMount env (initial url true) = Normal tt w' /\
    scene w' = Some s' /\
    List.length (meshes s') = List.length cm /\
    forall i m0,
      nth_error cm i = Some m0 ->
      exists m,
        nth_error (meshes s') i = Some m /\
        parent m = (if hasVertices m0 then Some 0%nat else parent m0) /\
        totalVertices m = totalVertices m0 /\
        minimum m = minimum m0 /\ maximum m = maximum m0.
Proof.
  intros Hq Hurl Hload.
  destruct (mounted_meshes env url cm Hq Hurl Hload)
    as (w' & s' & Hrun & Hs & Hm & _).
  exists w', s'. repeat split; try assumption.
  - rewrite Hm. apply mapi_from_length.
  - intros i m0 Hi. exists (placed_mesh i m0).
    rewrite Hm, nth_error_mapi_from, Hi. simpl.
    destruct (placed_mesh_keeps i m0) as (Ht & Hp & Hlo & Hhi).
    repeat split; assumption.
Qed.

Lemma render_meshes_below_pivot_witness :
  exists w' s',
    onMount (serving [example_mesh; hollow_mesh]) (initial "model.glb" true)
    = Normal tt w' /\
    scene w' = Some s' /\
    List.length (meshes s') = 2%nat /\
    forall i m0,
      nth_error [example_mesh; hollow_mesh] i = Some m0 ->
      exists m,
        nth_error (meshes s') i = Some m /\
        parent m = (if hasVertices m0 then Some 0%nat else parent m0) /\
        totalVertices m = totalVertices m0 /\
        minimum m = minimum m0 /\ maximum m = maximum m0.
Proof.
  apply (render_meshes_below_pivot (serving [example_mesh; hollow_mesh])
                                   "model.glb"%string [example_mesh; hollow_mesh]).
  - intros st. reflexivity.
  - discriminate.
  - reflexivity.
Defined.

Lemma defaultMat_name_inj (i j : nat) :
  defaultMat_name i = defaultMat_name j -> i = j.
Proof.
  unfold defaultMat_name. simpl. intros H. injection H as H.
  apply (f_equal NilEmpty.uint_of_string) in H.
  rewrite !NilEmpty.usu in H. injection H as H.
  apply (f_equal Nat.of_uint) in H.
  now rewrite !DecimalNat.Unsigned.of_to in H.
Qed.

(** X2: a mesh that arrives without material gets a material named after
    its position in the container ([defaultMat_<index>], counting every
    mesh), and different positions give different names. *)
Theorem default_materials_named_by_index (env : Env) (url : string)
        (cm : list AbstractMesh) :
  quiet env -> url <> ""%string ->
  LoadAssetContainerAsync env url = Resolves (Some (mkAssetContainer cm)) ->
  exists w' s',
    onMount env (initial url true) = Normal tt w' /\
    scene w' = Some s' /\
    (forall i m0,
        nth_error cm i = Some m0 -> material m0 = None ->
        exists m mt,
          nth_error (meshes s') i = Some m /\ material m = Some mt /\
          mat_name mt = defaultMat_name i) /\
    (forall i j m0 m0',
        i <> j ->
        nth_error cm i = Some m0 -> material m0 = None ->
        nth_error cm j = Some m0' -> material m0' = None ->
        exists m mt m' mt',
          nth_error (meshes s') i = Some m /\ material m = Some mt /\
          nth_error (meshes s') j = Some m' /\ material m' = Some mt' /\
          mat_name mt <> mat_name mt').
Proof.
  intros Hq Hurl Hload.
  destruct (mounted_meshes env url cm Hq Hurl Hload)
    as (w' & s' & Hrun & Hs & Hm & _).
  assert (Hname : forall i m0,
             nth_error cm i = Some m0 -> material m0 = None ->
             exists m mt,
               nth_error (meshes s') i = Some m /\ material m = Some mt /\
               mat_name mt = defaultMat_name i).
  { intros i m0 Hi Hmat.
    exists (placed_mesh i m0). rewrite Hm, nth_error_mapi_from, Hi. simpl.
    unfold placed_mesh, prepare_mesh.
    destruct m0 as [tv en vis mat par lo hi]; simpl in Hmat; subst mat; simpl.
    destruct (hasVertices _); eexists; repeat split. }
  exists w', s'. split; [exact Hrun|]. split; [exact Hs|]. split; [exact Hname|].
  intros i j m0 m0' Hij Hi Hmat Hj Hmat'.
  destruct (Hname i m0 Hi Hmat) as (m & mt & H1 & H2 & H3).
  destruct (Hname j m0' Hj Hmat') as (m' & mt' & H1' & H2' & H3').
  exists m, mt, m', mt'. repeat split; try assumption.
  rewrite H3, H3'. intros E. apply Hij. now apply defaultMat_name_inj.
Qed.

Lemma default_materials_named_by_index_witness :
  exists w' s' m mt,
    onMount (serving mixed_container) (initial "model.glb" true) = Normal tt w' /\
    scene w' = Some s' /\
    nth_error (meshes s') 1 = Some m /\ material m = Some mt /\
    mat_name mt = "defaultMat_1"%string.
Proof.
  destruct (default_materials_named_by_index (serving mixed_container)
              "model.glb"%string mixed_container)
    as (w' & s' & Hrun & Hs & Hname & _).
  - intros st. reflexivity.
  - discriminate.
  - reflexivity.
  - destruct (Hname 1%nat example_mesh eq_refl eq_refl) as (m & mt & Hm & Hmt & Hn).
    exists w', s', m, mt. repeat split; assumption.
Defined.

(** X3: a successful activation creates the pivot exactly when some mesh of
    the container has vertices, and never more than one. *)
Theorem one_pivot_iff_render_mesh (env : Env) (url : string)
        (cm : list AbstractMesh) :
  quiet env -> url <> ""%string ->
  LoadAssetContainerAsync env url = Resolves (Some (mkAssetContainer cm)) ->
  exists w' s',
    onMount env (initial url true) = Normal tt w' /\
    scene w' = Some s' /\
    (existsb hasVertices cm = false -> transformNodes s' = []) /\
    (existsb hasVertices cm = true ->
     exists pivot, transformNodes s' = [pivot] /\
                   node_name pivot = "modelPivot"%string).
Proof.
  intros Hq Hurl Hload.
  destruct (mounted_meshes env url cm Hq Hurl Hload)
    as (w' & s' & Hrun & Hs & _ & Hcase).
  exists w', s'. split; [exact Hrun|]. split; [exact Hs|].
  pose proof (renderable_nil_iff cm) as Hnil.
  destruct Hcase as [[He ->]|[[Hne ->]|(Hne & -> & _)]].
  - split; [reflexivity|]. intros Hex. apply Hnil in He. congruence.
  - split; [intros Hex; apply Hnil in Hex; contradiction|].
    intros _. eexists. split; reflexivity.
  - split; [intros Hex; apply Hnil in Hex; contradiction|].
    intros _. eexists. rewrite transformNodes_normalized. split; reflexivity.
Qed.

Lemma one_pivot_iff_render_mesh_witness :
  (exists w' s',
      onMount (serving [hollow_mesh; painted_mesh]) (initial "model.glb" true)
      = Normal tt w' /\
      scene w' = Some s' /\ transformNodes s' = [])
  /\
  (exists w' s' pivot,
      onMount (serving [hollow_mesh; example_mesh; point_mesh])
              (initial "model.glb" true) = Normal tt w' /\
      scene w' = Some s' /\ transformNodes s' = [pivot] /\
      node_name pivot = "modelPivot"%string).
Proof.
  split.
  - destruct (one_pivot_iff_render_mesh (serving [hollow_mesh; painted_mesh])
                "model.glb"%string [hollow_mesh; painted_mesh])
      as (w' & s' & Hrun & Hs & Hnone & _).
    + intros st. reflexivity.
    + discriminate.
    + reflexivity.
    + exists w', s'. repeat split; try assumption. apply Hnone. reflexivity.
  - destruct (one_pivot_iff_render_mesh
                (serving [hollow_mesh; example_mesh; point_mesh])
                "model.glb"%string [hollow_mesh; example_mesh; point_mesh])
      as (w' & s' & Hrun & Hs & _ & Hsome).
    + intros st. reflexivity.
    + discriminate.
    + reflexivity.
    + destruct (Hsome eq_refl) as (pivot & Hp & Hn).
      exists w', s', pivot. repeat split; assumption.
Defined.

(* ================================================================== *)
(** * Where the normalized model lies *)
(* ================================================================== *)

Lemma CheckExtends_inside_old (b : BoundingVectors) (u v : Vector3) :
  inside u b -> inside u (CheckExtends b v).
Proof.
  intros ((H1 & H2) & (H3 & H4) & (H5 & H6)).
  unfold inside, CheckExtends; simpl.
  repeat split;
    first [ eapply Qle_trans; [apply Q.le_min_l | eassumption]
          | eapply Qle_trans; [eassumption | apply Q.le_max_l] ].
Qed.

Lemma fold_CheckExtends_inside_old (pts : list Vector3) :
  forall b u, inside u b -> inside u (fold_left CheckExtends pts b).
Proof.
  induction pts as [|v l IH]; intros b u Hu; simpl; [exact Hu|].
  apply IH. now apply CheckExtends_inside_old.
Qed.

Lemma fold_CheckExtends_inside (pts : list Vector3) :
  forall b u, In u pts -> inside u (fold_left CheckExtends pts b).
Proof.
  induction pts as [|v l IH]; intros b u Hin; simpl; [contradiction|].
  destruct Hin as [<-|Hin].
  - apply fold_CheckExtends_inside_old.
    unfold inside, CheckExtends; simpl.
    repeat split; first [apply Q.le_min_r | apply Q.le_max_r].
  - now apply IH.
Qed.

(** Every point lies in the box around the points. *)
Lemma extents_inside (pts : list Vector3) (u : Vector3) :
  In u pts -> inside u (extents pts).
Proof.
  destruct pts as [|p rest]; [contradiction|]. intros [<-|Hin]; simpl.
  - apply fold_CheckExtends_inside_old. unfold inside; simpl.
    repeat split; apply Qle_refl.
  - now apply fold_CheckExtends_inside.
Qed.

Lemma postBounds_centred (s : Scene) (ids : list nat) :
  0 < maxDimensionOf (preBounds s ids) ->
  Center (bmin (postBounds s ids)) (bmax (postBounds s ids)) =v= Zero.
Proof.
  intros Hm. destruct (boxes_moved s ids Hm) as [Hk Hbox].
  pose proof (Center_moved _ _ _ _ Hbox) as (Hx & Hy & Hz).
  unfold veq, affine, Babylon.scale in *; simpl in *.
  repeat split; [rewrite Hx | rewrite Hy | rewrite Hz]; ring.
Qed.

(** A box centred on the origin whose largest extent is 10 lies in the cube. *)
Lemma centred_box_in_cube (b : BoundingVectors) (v : Vector3) :
  maxDimensionOf b == 10 -> Center (bmin b) (bmax b) =v= Zero ->
  inside v b -> in_cube v.
Proof.
  intros Hm (Cx & Cy & Cz) ((H1 & H2) & (H3 & H4) & (H5 & H6)).
  unfold maxDimensionOf, Math_max3, subtract, Center, Zero in *; simpl in *.
  assert (Hx : x (bmax b) - x (bmin b) <= 10).
  { rewrite <- Hm. eapply Qle_trans; [apply Q.le_max_l|apply Q.le_max_l]. }
  assert (Hy : y (bmax b) - y (bmin b) <= 10).
  { rewrite <- Hm. eapply Qle_trans; [apply Q.le_max_r|apply Q.le_max_l]. }
  assert (Hz : z (bmax b) - z (bmin b) <= 10).
  { rewrite <- Hm. apply Q.le_max_r. }
  assert (Ex : x (bmin b) + x (bmax b) == 0).
  { setoid_replace (x (bmin b) + x (bmax b))
      with (((x (bmin b) + x (bmax b)) / 2) * 2) by field.
    rewrite Cx. ring. }
  assert (Ey : y (bmin b) + y (bmax b) == 0).
  { setoid_replace (y (bmin b) + y (bmax b))
      with (((y (bmin b) + y (bmax b)) / 2) * 2) by field.
    rewrite Cy. ring. }
  assert (Ez : z (bmin b) + z (bmax b) == 0).
  { setoid_replace (z (bmin b) + z (bmax b))
      with (((z (bmin b) + z (bmax b)) / 2) * 2) by field.
    rewrite Cz. ring. }
  unfold in_cube. repeat split; lra.
Qed.

(** X4: in the scaled branch every corner the engine measures below the
    pivot after normalization lies in the cube [-5,5]^3 around the origin. *)
Theorem normalized_model_fits_cube (env : Env) (w : World) (s : Scene)
        (c : ArcRotateCamera) (renderMeshes : list nat) :
  quiet env -> scene w = Some s -> camera w = Some c -> renderMeshes <> [] ->
  0 < maxDimensionOf (preBounds s renderMeshes) ->
  exists w' s',
    normalization_pass env renderMeshes w = Normal tt w' /\
    scene w' = Some s' /\
    forall v, In v (hierarchyCorners s' (pivot_of s) hasVertices) -> in_cube v.
Proof.
  intros Hq Hs Hc Hne Hm.
  eexists _, (normalized s renderMeshes).
  split; [apply (pass_scaled env Hq w s c renderMeshes); assumption|].
  split; [reflexivity|].
  intros v Hv.
  apply (centred_box_in_cube (postBounds s renderMeshes)).
  - now apply postBounds_extent.
  - now apply postBounds_centred.
  - unfold postBounds, getHierarchyBoundingVectors. now apply extents_inside.
Qed.

Lemma normalized_model_fits_cube_witness :
  exists w' s',
    normalization_pass (serving [example_mesh; point_mesh]) [0%nat; 1%nat]
                       (ready (serving [example_mesh; point_mesh]) "model.glb"
                              [example_mesh; point_mesh])
    = Normal tt w' /\
    scene w' = Some s' /\
    forall v, In v (hierarchyCorners s' 0 hasVertices) -> in_cube v.
Proof.
  apply (normalized_model_fits_cube (serving [example_mesh; point_mesh])
           (ready (serving [example_mesh; point_mesh]) "model.glb"
                  [example_mesh; point_mesh])
           (prepared [example_mesh; point_mesh])
           (camera0 (serving [example_mesh; point_mesh])) [0%nat; 1%nat]).
  - intros st. reflexivity.
  - reflexivity.
  - reflexivity.
  - discriminate.
  - vm_compute. reflexivity.
Defined.

(** ** The scale in terms of the loaded container *)

Lemma corners_of_placed (nd : TransformNode) (cm : list AbstractMesh) :
  forall index,
    flat_map (fun m => [toWorld nd (minimum m); toWorld nd (maximum m)])
             (filter (fun m => isChildOf 0 m && hasVertices m
                               && negb (totalVertices m =? 0)%nat)
                     (mapi_from index placed_mesh cm))
    = map (toWorld nd) (container_corners cm).
Proof.
  unfold container_corners.
  induction cm as [|m0 l IH]; intros index; simpl; [reflexivity|].
  destruct (placed_mesh_keeps index m0) as (Ht & Hp & Hlo & Hhi).
  unfold isChildOf, hasVertices at 1. rewrite Hp, Ht.
  fold (hasVertices m0).
  destruct (hasVertices m0) eqn:Hv; simpl.
  - assert (Hnz : (totalVertices m0 =? 0)%nat = false).
    { unfold hasVertices in Hv. apply Nat.ltb_lt in Hv. apply Nat.eqb_neq. lia. }
    rewrite Hnz. simpl. rewrite Hlo, Hhi. now rewrite IH.
  - rewrite andb_false_r. simpl. apply IH.
Qed.

Lemma preBounds_of_container (cm : list AbstractMesh) :
  preBounds (prepared cm) (renderable (merged cm) (seq 0 (List.length cm)))
  = extents (map (toWorld (new_TransformNode "modelPivot"))
                 (container_corners cm)).
Proof.
  unfold preBounds, getHierarchyBoundingVectors, hierarchyCorners.
  rewrite pivot_of_reparented.
  change (meshes (reparented (prepared cm)
                             (renderable (merged cm) (seq 0 (List.length cm)))))
    with (forEach (fun _ => setParent 0)
                  (renderable (merged cm) (seq 0 (List.length cm)))
                  (meshes (prepared cm))).
  rewrite meshes_prepared, reparent_closed_form.
  apply (f_equal extents). apply corners_of_placed.
Qed.

Lemma pivot_frame_moved (pts : list Vector3) :
  Forall2 (moved 1 Zero) pts
          (map (toWorld (new_TransformNode "modelPivot")) pts).
Proof.
  induction pts as [|v l IH]; simpl; constructor; [|exact IH].
  unfold moved, veq, toWorld, affine; simpl. repeat split; reflexivity.
Qed.

Lemma container_box_moved (cm : list AbstractMesh) :
  container_corners cm <> [] ->
  box_moved 1 Zero (container_box cm)
            (preBounds (prepared cm)
                       (renderable (merged cm) (seq 0 (List.length cm)))).
Proof.
  intros Hne. rewrite preBounds_of_container. unfold container_box.
  apply extents_moved; [lra | exact Hne | apply pivot_frame_moved].
Qed.

Lemma container_has_render_mesh (cm : list AbstractMesh) :
  container_corners cm <> [] -> existsb hasVertices cm = true.
Proof.
  unfold container_corners. intros Hne.
  destruct (filter hasVertices cm) as [|m l] eqn:E; [now elim Hne|].
  assert (Hin : In m (filter hasVertices cm)) by (rewrite E; now left).
  apply filter_In in Hin. apply existsb_exists. now exists m.
Qed.

(** X5: the pivot's scale and position follow from the loaded container
    alone: with B the box around the corners of the container's meshes that
    have vertices (meshes without vertices do not count) and a largest extent
    above 0, a successful activation leaves one pivot with scale
    10 / maxDimension(B) on every axis and position -(center(B) * scale). *)
Theorem pivot_from_container (env : Env) (url : string) (cm : list AbstractMesh) :
  quiet env -> url <> ""%string ->
  LoadAssetContainerAsync env url = Resolves (Some (mkAssetContainer cm)) ->
  0 < maxDimensionOf (container_box cm) ->
  exists w' s' pivot,
    onMount env (initial url true) = Normal tt w' /\
    scene w' = Some s' /\
    transformNodes s' = [pivot] /\
    (let k := 10 / maxDimensionOf (container_box cm) in
     scaling pivot =v= mkVector3 k k k /\
     position pivot
     =v= Babylon.scale (Center (bmin (container_box cm)) (bmax (container_box cm)))
                       (- k)).
Proof.
  intros Hq Hurl Hload Hpos.
  set (ids := renderable (merged cm) (seq 0 (List.length cm))).
  assert (Hcorn : container_corners cm <> []).
  { intros Hnil. pose proof maxDimensionOf_no_points as Hneg.
    unfold container_box in Hpos. rewrite Hnil in Hpos. lra. }
  assert (Hne : ids <> []).
  { intros Hnil. apply renderable_nil_iff in Hnil.
    rewrite (container_has_render_mesh cm Hcorn) in Hnil. discriminate. }
  pose proof (container_box_moved cm Hcorn) as Hbox. fold ids in Hbox.
  assert (H1 : 0 < 1) by lra.
  pose proof (maxDimensionOf_moved 1 Zero _ _ H1 Hbox) as Hmax.
  assert (Hm : 0 < maxDimensionOf (preBounds (prepared cm) ids))
    by (rewrite Hmax; lra).
  pose proof (pass_scaled env Hq (ready env url cm) (prepared cm) (camera0 env)
                ids eq_refl eq_refl Hne Hm) as Hpass.
  eexists _, (normalized (prepared cm) ids), _.
  split; [exact (onMount_quiet env url cm Hq Hload _ Hurl Hpass)|].
  split; [reflexivity|].
  split; [exact (transformNodes_normalized (prepared cm) ids)|].
  pose proof (Center_moved 1 Zero _ _ Hbox) as (Cx & Cy & Cz).
  unfold veq, Babylon.scale, Center, affine in *; simpl in *.
  assert (Hnz : ~ maxDimensionOf (container_box cm) == 0) by lra.
  repeat split;
    try (rewrite Hmax; field; exact Hnz);
    [rewrite Cx | rewrite Cy | rewrite Cz]; rewrite Hmax; field; exact Hnz.
Qed.

Lemma pivot_from_container_witness :
  exists w' s' pivot,
    onMount (serving cluttered_container) (initial "model.glb" true)
    = Normal tt w' /\
    scene w' = Some s' /\
    transformNodes s' = [pivot] /\
    scaling pivot =v= mkVector3 2.5 2.5 2.5 /\
    position pivot =v= mkVector3 (- 2.5) (- (5)) (- 2.5).
Proof.
  destruct (pivot_from_container (serving cluttered_container)
              "model.glb"%string cluttered_container)
    as (w' & s' & pivot & Hrun & Hs & Hp & Hsc & Hpos).
  - intros st. reflexivity.
  - discriminate.
  - reflexivity.
  - vm_compute. reflexivity.
  - exists w', s', pivot. repeat split; try assumption.
    + destruct Hsc as (Hx & _). rewrite Hx. vm_compute. reflexivity.
    + destruct Hsc as (_ & Hy & _). rewrite Hy. vm_compute. reflexivity.
    + destruct Hsc as (_ & _ & Hz). rewrite Hz. vm_compute. reflexivity.
    + destruct Hpos as (Hx & _). rewrite Hx. vm_compute. reflexivity.
    + destruct Hpos as (_ & Hy & _). rewrite Hy. vm_compute. reflexivity.
    + destruct Hpos as (_ & _ & Hz). rewrite Hz. vm_compute. reflexivity.
Defined.

(* ================================================================== *)
(** * The camera frame of the scaled branch *)
(* ================================================================== *)

(** X6: in the scaled branch, whatever [zoomOn] does to radius, target and
    far plane, the camera ends with lower radius limit 0.01, upper radius
    limit max(4r, r + 5) for r = max(postMaxDimension * 1.5, 3), near plane
    0.01 and far plane 5 times that upper limit, the value line 131 re-applies
    after [zoomOn].  Whatever the re-measured extent, the upper limit is at
    least 12 and the far plane at least 60. *)
Theorem scaled_camera_frame_survives_zoomOn (env : Env) (w : World) (s : Scene)
        (c : ArcRotateCamera) (renderMeshes : list nat) :
  quiet env -> zoom_keeps_limits env ->
  scene w = Some s -> camera w = Some c -> renderMeshes <> [] ->
  0 < maxDimensionOf (preBounds s renderMeshes) ->
  exists w' s' cam hi,
    normalization_pass env renderMeshes w = Normal tt w' /\
    scene w' = Some s' /\
    camera w' = Some cam /\
    let postMaxDimension :=
      maxDimensionOf (getHierarchyBoundingVectors s' (pivot_of s) hasVertices) in
    let r := Qmax (postMaxDimension * 1.5) 3 in
    lowerRadiusLimit cam = Some 0.01 /\
    upperRadiusLimit cam = Some hi /\
    hi = Qmax (r * 4) (r + 5) /\ 12 <= hi /\
    minZ cam = 0.01 /\
    maxZ cam = hi * 5 /\ 60 <= maxZ cam.
Proof.
  intros Hq Hz Hs Hc Hne Hm.
  destruct (Hz (framed (maxDimensionOf (postBounds s renderMeshes)) c)
               (deref renderMeshes (meshes (normalized s renderMeshes))))
    as (Hlo & Hhi & Hmin).
  assert (Hup : 12 <= Qmax (Qmax (maxDimensionOf (postBounds s renderMeshes) * 1.5) 3 * 4)
                           (Qmax (maxDimensionOf (postBounds s renderMeshes) * 1.5) 3 + 5)).
  { eapply Qle_trans; [|apply Q.le_max_l].
    pose proof (Q.le_max_r (maxDimensionOf (postBounds s renderMeshes) * 1.5) 3).
    lra. }
  eexists _, (normalized s renderMeshes), _, _.
  split; [apply (pass_scaled env Hq w s c renderMeshes); assumption|].
  split; [reflexivity|]. split; [reflexivity|].
  unfold zoomed. cbn [lowerRadiusLimit upperRadiusLimit minZ maxZ set_maxZ].
  rewrite Hlo, Hhi, Hmin.
  cbn [framed lowerRadiusLimit upperRadiusLimit minZ set_maxZ set_minZ
       set_upperRadiusLimit set_lowerRadiusLimit to_number].
  split; [reflexivity|]. split; [reflexivity|]. split; [reflexivity|].
  split; [exact Hup|]. split; [reflexivity|]. split; [reflexivity|].
  fold (postBounds s renderMeshes). lra.
Qed.

Lemma zoom_clip_keeps_limits (ms : list AbstractMesh) :
  zoom_keeps_limits (serving_clip ms).
Proof. intros c l. repeat split. Qed.

Lemma scaled_camera_frame_survives_zoomOn_witness :
  exists w' s' cam hi,
    normalization_pass (serving_clip [example_mesh]) [0%nat]
                       (ready (serving_clip [example_mesh]) "model.glb"
                              [example_mesh])
    = Normal tt w' /\
    scene w' = Some s' /\
    camera w' = Some cam /\
    let postMaxDimension :=
      maxDimensionOf (getHierarchyBoundingVectors s' 0 hasVertices) in
    let r := Qmax (postMaxDimension * 1.5) 3 in
    lowerRadiusLimit cam = Some 0.01 /\
    upperRadiusLimit cam = Some hi /\
    hi = Qmax (r * 4) (r + 5) /\ 12 <= hi /\
    minZ cam = 0.01 /\
    maxZ cam = hi * 5 /\ 60 <= maxZ cam.
Proof.
  apply (scaled_camera_frame_survives_zoomOn (serving_clip [example_mesh])
           (ready (serving_clip [example_mesh]) "model.glb" [example_mesh])
           (prepared [example_mesh]) (camera0 (serving_clip [example_mesh]))
           [0%nat]).
  - intros st. reflexivity.
  - apply zoom_clip_keeps_limits.
  - reflexivity.
  - reflexivity.
  - discriminate.
  - vm_compute. reflexivity.
Defined.

(* ================================================================== *)
(** * Sessions that fail, resize and end *)
(* ================================================================== *)

(** A resize event with no listener leaves the world alone; with the
    component's listener it resizes the engine once. *)
Lemma window_resize_unsubscribed (w : World) :
  resizeListeners w = [] -> window_resize w = w.
Proof. intros H. unfold window_resize. now rewrite H. Qed.

Lemma window_resize_subscribed (w : World) (e : Engine) :
  resizeListeners w = [ResizeEngine] -> engine w = Some e ->
  window_resize w = set_engine (Some (resize e)) w.
Proof.
  intros Hl He. unfold window_resize, run_listener. rewrite Hl. simpl.
  now rewrite He.
Qed.

Lemma load_fails (env : Env) (w : World) (e : Error) :
  match LoadAssetContainerAsync env (modelUrl w) with
  | Rejects => e = LoadRejected
  | Resolves None => e = NoAssetContainer
  | Resolves (Some _) => False
  end ->
  load env w = Abrupt e w.
Proof.
  unfold load. destruct (LoadAssetContainerAsync env (modelUrl w)) as [|[c|]];
    intros H; subst; try contradiction; reflexivity.
Qed.

(** X7: when the loader rejects or resolves to nothing, activation ends
    normally with exactly one console error; the engine keeps rendering a
    scene with the two lights and no mesh, the camera keeps its initial
    orbit, and no resize listener is registered, so a later resize event
    does not reach the engine. *)
Theorem load_failure_leaves_live_session (env : Env) (url : string) :
  quiet env -> url <> ""%string ->
  LoadAssetContainerAsync env url = Rejects \/
  LoadAssetContainerAsync env url = Resolves None ->
  exists w' e en s c,
    onMount env (initial url true) = Normal tt w' /\
    console w' = [console_error "Error loading model:" e] /\
    e = match LoadAssetContainerAsync env url with
        | Rejects => LoadRejected
        | _ => NoAssetContainer
        end /\
    engine w' = Some en /\ renderLoop en = true /\ engine_disposed en = false /\
    scene w' = Some s /\ meshes s = [] /\ transformNodes s = [] /\
    List.length (lights s) = 2%nat /\
    camera w' = Some c /\ radius c = 10 /\ target c = Zero /\
    controlAttached c = true /\
    handleResize w' = None /\ resizeListeners w' = [] /\
    window_resize w' = w'.
Proof.
  intros Hq Hurl Hload.
  set (e := match LoadAssetContainerAsync env url with
            | Rejects => LoadRejected
            | _ => NoAssetContainer
            end).
  assert (Hbody : mount_body env (initial url true) = Abrupt e (set_up env url)).
  { unfold mount_body.
    rewrite (bind_Normal _ _ _ _ _ (setup_quiet env url Hq)).
    apply bind_Abrupt. apply load_fails. simpl. unfold e.
    destruct Hload as [-> | ->]; reflexivity. }
  exists (log (console_error "Error loading model:" e) (set_up env url)),
    e, engine0, scene0, (camera0 env).
  split.
  - rewrite (onMount_guarded env url Hurl). unfold try_catch.
    now rewrite Hbody.
  - repeat split.
Qed.

Lemma load_failure_leaves_live_session_witness :
  (exists w' e en s c,
      onMount rejecting (initial "model.glb" true) = Normal tt w' /\
      console w' = [console_error "Error loading model:" e] /\
      e = LoadRejected /\
      engine w' = Some en /\ renderLoop en = true /\ engine_disposed en = false /\
      scene w' = Some s /\ meshes s = [] /\ transformNodes s = [] /\
      List.length (lights s) = 2%nat /\
      camera w' = Some c /\ radius c = 10 /\ target c = Zero /\
      controlAttached c = true /\
      handleResize w' = None /\ resizeListeners w' = [] /\
      window_resize w' = w')
  /\
  (exists w' e en s c,
      onMount resolving_null (initial "model.glb" true) = Normal tt w' /\
      console w' = [console_error "Error loading model:" e] /\
      e = NoAssetContainer /\
      engine w' = Some en /\ renderLoop en = true /\ engine_disposed en = false /\
      scene w' = Some s /\ meshes s = [] /\ transformNodes s = [] /\
      List.length (lights s) = 2%nat /\
      camera w' = Some c /\ radius c = 10 /\ target c = Zero /\
      controlAttached c = true /\
      handleResize w' = None /\ resizeListeners w' = [] /\
      window_resize w' = w').
Proof.
  split.
  - apply (load_failure_leaves_live_session rejecting "model.glb"%string).
    + intros st. reflexivity.
    + discriminate.
    + left. reflexivity.
  - apply (load_failure_leaves_live_session resolving_null "model.glb"%string).
    + intros st. reflexivity.
    + discriminate.
    + right. reflexivity.
Defined.

Lemma pass_keeps_engine (env : Env) (w : World) (s : Scene)
      (c : ArcRotateCamera) (ids : list nat) :
  quiet env -> scene w = Some s -> camera w = Some c ->
  exists w',
    normalization_pass env ids w = Normal tt w' /\
    engine w' = engine w /\ handleResize w' = handleResize w /\
    resizeListeners w' = resizeListeners w.
Proof.
  intros Hq Hs Hc.
  destruct (pass_outcome env Hq w s c ids Hs Hc)
    as [[_ H]|[(_ & _ & H)|(_ & _ & H)]];
    rewrite H; eexists; repeat split.
Qed.

(** X8: after a successful activation every resize event of the window
    reaches the engine exactly once: [n] events make [n] calls of
    [engine.resize]. *)
Theorem resize_events_reach_engine (env : Env) (url : string)
        (cm : list AbstractMesh) :
  quiet env -> url <> ""%string ->
  LoadAssetContainerAsync env url = Resolves (Some (mkAssetContainer cm)) ->
  exists w',
    onMount env (initial url true) = Normal tt w' /\
    resizeListeners w' = [ResizeEngine] /\
    forall n, exists e,
        engine (Nat.iter n window_resize w') = Some e /\ resizes e = n.
Proof.
  intros Hq Hurl Hload.
  destruct (pass_keeps_engine env (ready env url cm) (prepared cm) (camera0 env)
              (renderable (merged cm) (seq 0 (List.length cm))) Hq eq_refl eq_refl)
    as (wp & Hpass & Hen & Hhr & Hls).
  exists (subscribed wp).
  split; [exact (onMount_quiet env url cm Hq Hload wp Hurl Hpass)|].
  assert (Hl0 : resizeListeners (subscribed wp) = [ResizeEngine])
    by (unfold subscribed; simpl; now rewrite Hls).
  split; [exact Hl0|].
  assert (He0 : engine (subscribed wp) = Some engine0)
    by (unfold subscribed; simpl; now rewrite Hen).
  intros n.
  assert (Hinv : exists e,
             engine (Nat.iter n window_resize (subscribed wp)) = Some e /\
             resizes e = n /\
             resizeListeners (Nat.iter n window_resize (subscribed wp))
             = [ResizeEngine]).
  { induction n as [|n (e & He & Hr & Hl)].
    - exists engine0. repeat split; assumption.
    - exists (resize e). rewrite Nat.iter_succ.
      rewrite (window_resize_subscribed _ e Hl He). simpl.
      repeat split; [now rewrite Hr | exact Hl]. }
  destruct Hinv as (e & He & Hr & _). now exists e.
Qed.

Lemma resize_events_reach_engine_witness :
  exists w',
    onMount example_env (initial "model.glb" true) = Normal tt w' /\
    resizeListeners w' = [ResizeEngine] /\
    forall n, exists e,
        engine (Nat.iter n window_resize w') = Some e /\ resizes e = n.
Proof.
  apply (resize_events_reach_engine example_env "model.glb"%string [example_mesh]).
  - intros st. reflexivity.
  - discriminate.
  - reflexivity.
Defined.

(** X9: when the engine cannot be created nothing else is: activation ends
    with one console error and every handle still empty, and [onDestroy]
    then returns without making a call, whatever the release calls would do. *)
Theorem engine_failure_creates_nothing (env : Env) (url : string) :
  throws env SEngine = true -> url <> ""%string ->
  exists w',
    onMount env (initial url true) = Normal tt w' /\
    console w' = [console_error "Error loading model:" (EngineFault SEngine)] /\
    engine w' = None /\ scene w' = None /\ camera w' = None /\
    handleResize w' = None /\ resizeListeners w' = [] /\
    onDestroy env w' = Normal tt w'.
Proof.
  intros Hthrow Hurl.
  exists (log (console_error "Error loading model:" (EngineFault SEngine))
              (initial url true)).
  split.
  - rewrite (onMount_guarded env url Hurl). unfold try_catch.
    assert (Hbody : mount_body env (initial url true)
                    = Abrupt (EngineFault SEngine) (initial url true)).
    { unfold mount_body. apply bind_Abrupt. unfold setup. apply bind_Abrupt.
      unfold call. now rewrite Hthrow. }
    now rewrite Hbody.
  - repeat split.
Qed.

Lemma engine_failure_creates_nothing_witness :
  exists w',
    onMount engineless (initial "model.glb" true) = Normal tt w' /\
    console w' = [console_error "Error loading model:" (EngineFault SEngine)] /\
    engine w' = None /\ scene w' = None /\ camera w' = None /\
    handleResize w' = None /\ resizeListeners w' = [] /\
    onDestroy engineless w' = Normal tt w'.
Proof.
  apply (engine_failure_creates_nothing engineless "model.glb"%string).
  - reflexivity.
  - discriminate.
Defined.

(** Every listener the window holds is the component's, so removing the
    component's listener empties the list. *)
Lemma removeEventListener_all (h : Listener) (ls : list Listener) :
  removeEventListener h ls = [].
Proof.
  induction ls as [|[] ls IH]; destruct h; simpl; [reflexivity|exact IH].
Qed.

(** X10: [onDestroy] releases but does not clear: every handle that was set
    is still set afterwards, and a second [onDestroy] repeats the release
    calls and leaves the world as the first one left it. *)
Theorem onDestroy_twice (env : Env) (w : World) :
  releases_quiet env ->
  exists w1,
    onDestroy env w = Normal tt w1 /\
    is_set (engine w1) = is_set (engine w) /\
    is_set (scene w1) = is_set (scene w) /\
    is_set (camera w1) = is_set (camera w) /\
    handleResize w1 = handleResize w /\
    onDestroy env w1 = Normal tt w1.
Proof.
  intros (H1 & H2 & H3 & H4). destruct w as [url cv eng sc cam hr con ls].
  destruct hr as [[]|], cam as [c|], eng as [e|], sc as [s|];
    run_destroy; rewrite ?H1, ?H2, ?H3, ?H4;
    run_destroy; rewrite ?H1, ?H2, ?H3, ?H4;
    rewrite ?removeEventListener_all;
    eexists; (split; [reflexivity|]); repeat (split; [reflexivity|]);
    run_destroy; rewrite ?H1, ?H2, ?H3, ?H4;
    run_destroy; rewrite ?H1, ?H2, ?H3, ?H4;
    rewrite ?removeEventListener_all; reflexivity.
Qed.

(* ================================================================== *)
(** * Every way activation can end *)
(* ================================================================== *)

Lemma triple_bind {A B : Type} (P : World -> Prop) (m : Js A) (k : A -> Js B)
      (M : A -> World -> Prop) (N : B -> World -> Prop) (R : World -> Prop) :
  triple P m M R -> (forall a, triple (M a) (k a) N R) ->
  triple P (bind m k) N R.
Proof.
  intros Hm Hk w Hw. unfold bind. specialize (Hm w Hw).
  destruct (m w) as [a w'|e w']; [exact (Hk a w' Hm) | exact Hm].
Qed.

Lemma triple_weaken {A : Type} (P P' : World -> Prop) (m : Js A)
      (N N' : A -> World -> Prop) (R R' : World -> Prop) :
  triple P m N R ->
  (forall w, P' w -> P w) -> (forall a w, N a w -> N' a w) ->
  (forall w, R w -> R' w) ->
  triple P' m N' R'.
Proof.
  intros H HP HN HR w Hw. specialize (H w (HP w Hw)).
  destruct (m w); auto.
Qed.

Lemma keeps_bind {A B : Type} (I : World -> Prop) (m : Js A) (k : A -> Js B) :
  keeps I m -> (forall a, keeps I (k a)) -> keeps I (bind m k).
Proof. intros Hm Hk. exact (triple_bind I m k _ _ I Hm Hk). Qed.

Lemma keeps_ret {A : Type} (I : World -> Prop) (a : A) : keeps I (ret a).
Proof. intros w Hw. exact Hw. Qed.

Lemma keeps_call (I : World -> Prop) (env : Env) (st : Step) :
  keeps I (call env st).
Proof. intros w Hw. unfold call. now destruct (throws env st). Qed.

Lemma keeps_modify (I : World -> Prop) (f : World -> World) :
  (forall w, I w -> I (f w)) -> keeps I (modify f).
Proof. intros Hf w Hw. exact (Hf w Hw). Qed.

Lemma keeps_the_scene (I : World -> Prop) : keeps I the_scene.
Proof. intros w Hw. unfold the_scene. now destruct (scene w). Qed.

Lemma keeps_load (I : World -> Prop) (env : Env) : keeps I (load env).
Proof.
  intros w Hw. unfold load.
  now destruct (LoadAssetContainerAsync env (modelUrl w)) as [|[c|]].
Qed.

Section Blind.

Variable I : World -> Prop.
Hypothesis Hblind : blind I.

Lemma keeps_on_engine (f : Engine -> Engine) : keeps I (on_engine f).
Proof.
  intros w Hw. unfold on_engine.
  destruct (engine w); [now apply Hblind | exact Hw].
Qed.

Lemma keeps_on_scene (f : Scene -> Scene) : keeps I (on_scene f).
Proof.
  intros w Hw. unfold on_scene.
  destruct (scene w); [now apply Hblind | exact Hw].
Qed.

Lemma keeps_on_camera (f : ArcRotateCamera -> ArcRotateCamera) :
  keeps I (on_camera f).
Proof.
  intros w Hw. unfold on_camera.
  destruct (camera w); [now apply Hblind | exact Hw].
Qed.

(** Sequences of the steps above. *)
Ltac keeps_steps :=
  cbv zeta;
  repeat first
         [ apply keeps_bind; [|intros ?]
         | apply keeps_call
         | apply keeps_on_engine
         | apply keeps_on_scene
         | apply keeps_on_camera
         | apply keeps_the_scene
         | apply keeps_ret
         | apply keeps_load
         | apply keeps_modify; intros ? ?; now apply Hblind ].

Lemma keeps_setup (env : Env) : keeps I (setup env).
Proof. unfold setup. keeps_steps. Qed.

Lemma keeps_addAllToScene (env : Env) (c : AssetContainer) :
  keeps I (addAllToScene env c).
Proof. unfold addAllToScene. keeps_steps. Qed.

Lemma keeps_prepare_meshes (env : Env) (ids : list nat) :
  keeps I (prepare_meshes env ids).
Proof.
  unfold prepare_meshes. apply keeps_bind; [apply keeps_call|].
  intros _ w Hw. unfold on_scene.
  destruct (scene w); [now apply Hblind | exact Hw].
Qed.

Lemma keeps_default_view (env : Env) : keeps I (default_view env).
Proof. unfold default_view. keeps_steps. Qed.

Lemma keeps_create_pivot (env : Env) (ids : list nat) :
  keeps I (create_pivot env ids).
Proof. unfold create_pivot. keeps_steps. Qed.

Lemma keeps_scale_and_frame (env : Env) (ids : list nat) (k : nat)
      (center : Vector3) (m : Q) :
  keeps I (scale_and_frame env ids k center m).
Proof. unfold scale_and_frame. keeps_steps. Qed.

(** The pass keeps [I] except for the warning it may log. *)
Lemma pass_triple (I' : World -> Prop) (env : Env) (ids : list nat) :
  blind I' -> (forall w, I w -> I' w) ->
  (forall w, I w -> I' (log no_meshes_warning w)) ->
  triple I (normalization_pass env ids) (fun _ => I') I'.
Proof.
  intros Hblind' Hweak Hlog. unfold normalization_pass.
  destruct (0 <? List.length ids)%nat.
  - apply (triple_weaken I I _ (fun _ => I) _ I); auto.
    change (keeps I (modelPivot <- create_pivot env ids;;
                     call env SBounds;;
                     s1 <- the_scene;;
                     (let preBounds :=
                        getHierarchyBoundingVectors s1 modelPivot hasVertices in
                      let center := Center (bmin preBounds) (bmax preBounds) in
                      let maxDimension := maxDimensionOf preBounds in
                      if Qlt_le_dec 0 maxDimension
                      then scale_and_frame env ids modelPivot center maxDimension
                      else default_view env))).
    apply keeps_bind; [apply keeps_create_pivot|]. intros k.
    apply keeps_bind; [apply keeps_call|]. intros _.
    apply keeps_bind; [apply keeps_the_scene|]. intros s1. cbv zeta.
    destruct (Qlt_le_dec 0 _);
      [apply keeps_scale_and_frame | apply keeps_default_view].
  - apply (triple_bind I _ _ (fun _ => I') (fun _ => I') I').
    + intros w Hw. exact (Hlog w Hw).
    + intros _ w Hw. unfold default_view.
      revert w Hw.
      change (keeps I' (call env SSetTarget;;
                        on_camera (setTarget Zero);; on_camera (set_radius 10))).
      apply keeps_bind; [apply keeps_call|]. intros _.
      apply keeps_bind; intros; intros w Hw; unfold on_camera;
        (destruct (camera w); [now apply Hblind' | exact Hw]).
Qed.

(** The guarded body, given what the subscription does from [I']. *)
Lemma mount_body_triple (I' : World -> Prop) (N : unit -> World -> Prop)
      (R : World -> Prop) (env : Env) :
  blind I' -> (forall w, I w -> I' w) ->
  (forall w, I w -> I' (log no_meshes_warning w)) ->
  (forall w, I' w -> R w) ->
  triple I' (subscribe env) N R ->
  triple I (mount_body env) N R.
Proof.
  intros Hblind' Hweak Hlog HR Hsub. unfold mount_body.
  assert (HIR : forall w, I w -> R w) by auto.
  apply (triple_bind I _ _ (fun _ => I) N R);
    [exact (triple_weaken _ _ _ _ _ _ _ (keeps_setup env)
              (fun _ H => H) (fun _ _ H => H) HIR)|].
  intros _.
  apply (triple_bind I _ _ (fun _ => I) N R);
    [exact (triple_weaken _ _ _ _ _ _ _ (keeps_load I env)
              (fun _ H => H) (fun _ _ H => H) HIR)|].
  intros c.
  apply (triple_bind I _ _ (fun _ => I) N R);
    [exact (triple_weaken _ _ _ _ _ _ _ (keeps_addAllToScene env c)
              (fun _ H => H) (fun _ _ H => H) HIR)|].
  intros ids.
  apply (triple_bind I _ _ (fun _ => I) N R);
    [exact (triple_weaken _ _ _ _ _ _ _ (keeps_the_scene I)
              (fun _ H => H) (fun _ _ H => H) HIR)|].
  intros s. cbv zeta.
  apply (triple_bind I _ _ (fun _ => I) N R);
    [exact (triple_weaken _ _ _ _ _ _ _ (keeps_prepare_meshes env ids)
              (fun _ H => H) (fun _ _ H => H) HIR)|].
  intros _.
  apply (triple_bind I _ _ (fun _ => I') N R);
    [exact (triple_weaken _ _ _ _ _ _ _
              (pass_triple I' env (renderable s ids) Hblind' Hweak Hlog)
              (fun _ H => H) (fun _ _ H => H) HR)|].
  intros _. exact Hsub.
Qed.

End Blind.

Lemma blind_unsubscribed_console (C : list ConsoleEntry -> Prop) :
  blind (fun w => unsubscribed w /\ C (console w)).
Proof. unfold blind. split; [|split]; intros w v H; exact H. Qed.

Lemma subscribe_triple (env : Env) :
  triple (fun w => unsubscribed w /\ quiet_console w)
         (subscribe env)
         (fun _ w => resizeListeners w = [ResizeEngine] /\
                     handleResize w = Some ResizeEngine /\ quiet_console w)
         (fun w => resizeListeners w = [] /\ quiet_console w).
Proof.
  intros [url cv eng sc cam hr con ls] [[Hl Hh] Hc]. simpl in Hl, Hh. subst.
  unfold subscribe, bind, modify, call; simpl.
  destruct (throws env SListen); simpl; repeat split; exact Hc.
Qed.

(** How the guarded body ends when it starts from the initial world. *)
Lemma mount_body_ends (env : Env) (url : string) :
  match mount_body env (initial url true) with
  | Normal _ w => resizeListeners w = [ResizeEngine] /\
                  handleResize w = Some ResizeEngine /\ quiet_console w
  | Abrupt _ w => resizeListeners w = [] /\ quiet_console w
  end.
Proof.
  assert (H : triple (fun w => unsubscribed w /\ console w = [])
                     (mount_body env)
                     (fun _ w => resizeListeners w = [ResizeEngine] /\
                                 handleResize w = Some ResizeEngine /\
                                 quiet_console w)
                     (fun w => resizeListeners w = [] /\ quiet_console w)).
  { apply (mount_body_triple
             (fun w => unsubscribed w /\ console w = [])
             (blind_unsubscribed_console (fun c => c = []))
             (fun w => unsubscribed w /\ quiet_console w)).
    - exact (blind_unsubscribed_console
               (fun c => c = [] \/ c = [no_meshes_warning])).
    - intros w0 [Hu Hc]. split; [exact Hu | now left].
    - intros w0 [Hu Hc]. split; [exact Hu|]. right. simpl. now rewrite Hc.
    - intros w0 [[Hl _] Hc]. now split.
    - apply subscribe_triple. }
  apply (H (initial url true)). repeat split.
Qed.

Lemma onMount_total (env : Env) (w : World) :
  exists w', onMount env w = Normal tt w'.
Proof.
  unfold onMount, try_catch.
  destruct (negb (canvasElement w) || (modelUrl w =? "")%string);
    [now exists w|].
  destruct (mount_body env w) as [[] w1|e w1]; eexists; reflexivity.
Qed.

(** A registered listener always has its handler stored. *)
Lemma listener_has_handler (env : Env) (url : string) (canvas : bool)
      (w1 : World) :
  onMount env (initial url canvas) = Normal tt w1 ->
  handleResize w1 = None -> resizeListeners w1 = [].
Proof.
  unfold onMount, try_catch. simpl. destruct canvas; simpl.
  2:{ intros H _. now injection H as <-. }
  destruct (String.eqb_spec url "") as [->|Hurl].
  { intros H _. now injection H as <-. }
  pose proof (mount_body_ends env url) as H.
  destruct (mount_body env (initial url true)) as [[] w|e w].
  - intros E Hh. injection E as <-. destruct H as (_ & Hh' & _). congruence.
  - intros E _. injection E as <-. simpl. apply H.
Qed.

(** X11: however activation goes, it ends in one of three ways.  It
    returned at line 35 and changed nothing; or it ran to the end, the resize
    listener is registered once and the console holds at most the "no
    renderable meshes" warning; or something threw, no listener is registered
    and the console ends with exactly one error, preceded at most by that
    warning. *)
Theorem activation_outcomes (env : Env) (url : string) (canvas : bool) :
  exists w',
    onMount env (initial url canvas) = Normal tt w' /\
    ((w' = initial url canvas /\ (canvas = false \/ url = ""%string))
     \/
     (resizeListeners w' = [ResizeEngine] /\
      handleResize w' = Some ResizeEngine /\
      (console w' = [] \/ console w' = [no_meshes_warning]))
     \/
     (resizeListeners w' = [] /\
      exists e,
        console w' = [console_error "Error loading model:" e] \/
        console w' = [no_meshes_warning; console_error "Error loading model:" e])).
Proof.
  unfold onMount. simpl.
  destruct canvas; simpl.
  2:{ eexists. split; [reflexivity|]. left. split; [reflexivity|now left]. }
  destruct (String.eqb_spec url "") as [->|Hurl].
  { eexists. split; [reflexivity|]. left. split; [reflexivity|now right]. }
  pose proof (mount_body_ends env url) as H.
  unfold try_catch.
  destruct (mount_body env (initial url true)) as [[] w1|e w1].
  - exists w1. split; [reflexivity|]. right. left. exact H.
  - eexists. split; [reflexivity|]. right. right.
    destruct H as [Hl Hc]. split; [exact Hl|]. exists e. simpl.
    destruct Hc as [-> | ->]; [now left | now right].
Qed.

Lemma onDestroy_outcome (env : Env) (w : World) :
  releases_quiet env ->
  exists w',
    onDestroy env w = Normal tt w' /\
    resizeListeners w'
    = match handleResize w with
      | Some h => removeEventListener h (resizeListeners w)
      | None => resizeListeners w
      end /\
    camera w' = option_map (set_controlAttached false) (camera w) /\
    engine w' = option_map dispose_engine (engine w) /\
    scene w' = option_map dispose_scene (scene w).
Proof.
  intros (H1 & H2 & H3 & H4). destruct w as [url cv eng sc cam hr con ls].
  destruct hr as [h|], cam as [c|], eng as [e|], sc as [s|];
    run_destroy; rewrite ?H1, ?H2, ?H3, ?H4;
    run_destroy; rewrite ?H1, ?H2, ?H3, ?H4;
    eexists; repeat split.
Qed.

(** X12: activation followed by [onDestroy] leaves no resize listener
    behind, however activation went; later resize events change nothing,
    and whatever engine, scene or camera was created is disposed or
    detached. *)
Theorem no_listener_after_destroy (env : Env) (url : string) (canvas : bool) :
  releases_quiet env ->
  exists w1 w2,
    onMount env (initial url canvas) = Normal tt w1 /\
    onDestroy env w1 = Normal tt w2 /\
    resizeListeners w2 = [] /\
    (forall n, Nat.iter n window_resize w2 = w2) /\
    (forall e, engine w2 = Some e ->
               engine_disposed e = true /\ renderLoop e = false) /\
    (forall s, scene w2 = Some s -> scene_disposed s = true) /\
    (forall c, camera w2 = Some c -> controlAttached c = false).
Proof.
  intros Hrel.
  destruct (onMount_total env (initial url canvas)) as (w1 & Hrun).
  destruct (onDestroy_outcome env w1 Hrel) as (w2 & Hd & Hl & Hc & He & Hs).
  exists w1, w2. split; [exact Hrun|]. split; [exact Hd|].
  assert (Hnone : resizeListeners w2 = []).
  { rewrite Hl. destruct (handleResize w1) as [h|] eqn:Hh.
    - apply removeEventListener_all.
    - exact (listener_has_handler env url canvas w1 Hrun Hh). }
  split; [exact Hnone|].
  split.
  { intros n. induction n as [|n IH]; [reflexivity|].
    rewrite Nat.iter_succ, IH. now apply window_resize_unsubscribed. }
  split; [|split].
  - intros e H. rewrite He in H. destruct (engine w1); simpl in H; [|discriminate].
    injection H as <-. now split.
  - intros s H. rewrite Hs in H. destruct (scene w1); simpl in H; [|discriminate].
    now injection H as <-.
  - intros c H. rewrite Hc in H. destruct (camera w1); simpl in H; [|discriminate].
    now injection H as <-.
Qed.

Lemma no_listener_after_destroy_witness :
  (exists w1 w2,
      onMount example_env (initial "model.glb" true) = Normal tt w1 /\
      onDestroy example_env w1 = Normal tt w2 /\
      resizeListeners w2 = [] /\
      (forall n, Nat.iter n window_resize w2 = w2) /\
      (forall e, engine w2 = Some e ->
                 engine_disposed e = true /\ renderLoop e = false) /\
      (forall s, scene w2 = Some s -> scene_disposed s = true) /\
      (forall c, camera w2 = Some c -> controlAttached c = false))
  /\
  (exists w1 w2,
      onMount zoom_failing (initial "model.glb" true) = Normal tt w1 /\
      onDestroy zoom_failing w1 = Normal tt w2 /\
      resizeListeners w2 = [] /\
      (forall n, Nat.iter n window_resize w2 = w2) /\
      (forall e, engine w2 = Some e ->
                 engine_disposed e = true /\ renderLoop e = false) /\
      (forall s, scene w2 = Some s -> scene_disposed s = true) /\
      (forall c, camera w2 = Some c -> controlAttached c = false)).
Proof.
  split.
  - apply (no_listener_after_destroy example_env "model.glb"%string true).
    repeat split.
  - apply (no_listener_after_destroy zoom_failing "model.glb"%string true).
    repeat split.
Defined.

(* ================================================================== *)
(** * Activation around the await *)
(* ================================================================== *)

(** The call and its continuation make up [onMount]. *)
Lemma onMount_splits (env : Env) (w : World) :
  onMount env w
  = Normal tt (match onMount_start env w with
               | (Finished, w') => w'
               | (Awaiting, w') => onMount_resume env w'
               end).
Proof.
  unfold onMount, onMount_start, onMount_resume, try_catch.
  destruct (negb (canvasElement w) || (modelUrl w =? "")%string);
    [reflexivity|].
  change (mount_body env) with (bind (setup env) (fun _ => mount_rest env)).
  unfold bind at 1.
  destruct (setup env w) as [[] w1|e w1]; [|reflexivity].
  destruct (mount_rest env w1) as [[] w2|e w2]; reflexivity.
Qed.

(** The continuation in a quiet environment, from any world that has a
    scene and a camera. *)
Lemma mount_rest_quiet (env : Env) (w : World) (s : Scene) (c : ArcRotateCamera)
      (cm : list AbstractMesh) :
  quiet env ->
  LoadAssetContainerAsync env (modelUrl w)
  = Resolves (Some (mkAssetContainer cm)) ->
  scene w = Some s -> camera w = Some c ->
  exists wp,
    mount_rest env w = Normal tt (subscribed wp) /\
    engine wp = engine w /\ handleResize wp = handleResize w /\
    resizeListeners wp = resizeListeners w.
Proof.
  intros Hq Hload Hs Hc. pose proof Hq as Hq'. unfold quiet in Hq'.
  unfold mount_rest.
  rewrite (bind_Normal (load env) _ w (mkAssetContainer cm) w)
    by (unfold load; now rewrite Hload).
  set (s1 := set_meshes (meshes s ++ cm) s).
  set (ids := seq (List.length (meshes s)) (List.length cm)).
  rewrite (bind_Normal (addAllToScene env (mkAssetContainer cm)) _ w ids
                       (set_scene (Some s1) w))
    by (destruct w as [url cv eng sc0 cam hr con ls]; simpl in Hs; subst sc0;
        unfold addAllToScene; run_js Hq'; reflexivity).
  rewrite (bind_the_scene _ _ s1) by reflexivity.
  cbv zeta.
  set (s2 := set_meshes (forEach (prepare_mesh true) ids (meshes s1)) s1).
  rewrite (bind_Normal (prepare_meshes env ids) _ _ tt (set_scene (Some s2) w))
    by (destruct w as [url cv eng sc0 cam hr con ls]; simpl in Hs; subst sc0;
        unfold prepare_meshes; run_js Hq'; reflexivity).
  destruct (pass_keeps_engine env (set_scene (Some s2) w) s2 c
              (renderable s1 ids) Hq eq_refl Hc)
    as (wp & Hpass & He & Hh & Hl).
  rewrite (bind_Normal _ _ _ _ _ Hpass).
  exists wp. split; [apply subscribe_quiet; apply Hq|].
  repeat split; assumption.
Qed.

(** X13: nothing cancels a load in flight.  When [onDestroy] runs while
    activation waits for the loader, and the loader then delivers and no
    call throws, the continuation still registers the resize listener,
    after the teardown that would have removed it: the listener stays, and
    a resize event calls [resize] on the disposed engine. *)
Theorem teardown_during_load_leaves_listener (env : Env) (url : string)
        (cm : list AbstractMesh) :
  quiet env -> url <> ""%string ->
  LoadAssetContainerAsync env url = Resolves (Some (mkAssetContainer cm)) ->
  exists w1 w2 e,
    onMount_start env (initial url true) = (Awaiting, w1) /\
    onDestroy env w1 = Normal tt w2 /\
    resizeListeners w2 = [] /\
    resizeListeners (onMount_resume env w2) = [ResizeEngine] /\
    engine (onMount_resume env w2) = Some e /\ engine_disposed e = true /\
    engine (window_resize (onMount_resume env w2)) = Some (resize e).
Proof.
  intros Hq Hurl Hload.
  assert (Hrel : releases_quiet env) by (repeat split; apply Hq).
  assert (Hstart : onMount_start env (initial url true)
                   = (Awaiting, set_up env url)).
  { unfold onMount_start. simpl.
    destruct (String.eqb_spec url "") as [E|_]; [contradiction|].
    now rewrite (setup_quiet env url Hq). }
  destruct (onDestroy_outcome env (set_up env url) Hrel)
    as (w2 & Hd & Hl & Hc & He & Hs).
  simpl in Hl, Hc, He, Hs.
  assert (Hurl2 : modelUrl w2 = url).
  { revert Hd. destruct Hrel as (H1 & H2 & H3 & H4).
    run_destroy; rewrite ?H1, ?H2, ?H3, ?H4;
      run_destroy; rewrite ?H1, ?H2, ?H3, ?H4.
    intros Hd. injection Hd as <-. reflexivity. }
  assert (Hh2 : handleResize w2 = None).
  { revert Hd. destruct Hrel as (H1 & H2 & H3 & H4).
    run_destroy; rewrite ?H1, ?H2, ?H3, ?H4;
      run_destroy; rewrite ?H1, ?H2, ?H3, ?H4.
    intros Hd. injection Hd as <-. reflexivity. }
  destruct (mount_rest_quiet env w2 (dispose_scene scene0)
              (set_controlAttached false (camera0 env)) cm Hq)
    as (wp & Hrest & Hep & Hhp & Hlp); try assumption.
  { now rewrite Hurl2. }
  exists (set_up env url), w2, (dispose_engine engine0).
  split; [exact Hstart|]. split; [exact Hd|]. split; [exact Hl|].
  assert (Hres : onMount_resume env w2 = subscribed wp)
    by (unfold onMount_resume, try_catch; now rewrite Hrest).
  rewrite Hres.
  assert (Hls : resizeListeners (subscribed wp) = [ResizeEngine])
    by (unfold subscribed; simpl; now rewrite Hlp, Hl).
  assert (Hen : engine (subscribed wp) = Some (dispose_engine engine0))
    by (unfold subscribed; simpl; now rewrite Hep, He).
  split; [exact Hls|]. split; [exact Hen|]. split; [reflexivity|].
  now rewrite (window_resize_subscribed _ _ Hls Hen).
Qed.

Lemma teardown_during_load_leaves_listener_witness :
  exists w1 w2 e,
    onMount_start example_env (initial "model.glb" true) = (Awaiting, w1) /\
    onDestroy example_env w1 = Normal tt w2 /\
    resizeListeners w2 = [] /\
    resizeListeners (onMount_resume example_env w2) = [ResizeEngine] /\
    engine (onMount_resume example_env w2) = Some e /\
    engine_disposed e = true /\
    engine (window_resize (onMount_resume example_env w2)) = Some (resize e).
Proof.
  apply (teardown_during_load_leaves_listener example_env "model.glb"%string
                                              [example_mesh]).
  - intros st. reflexivity.
  - discriminate.
  - reflexivity.
Defined.

(* ================================================================== *)
(** * The drag cursor *)
(* ================================================================== *)

(** X14: after any run of pointer events the drag flag is set exactly when
    the last event was a pointer-down, whatever it was before, and the
    canvas carries exactly one of the two cursor classes. *)
Theorem drag_flag_follows_last_event (events : list PointerEvent)
        (e : PointerEvent) (isDragging : bool) :
  let d := fold_left on_pointer (events ++ [e]) isDragging in
  d = match e with
      | pointerdown => true
      | _ => false
      end /\
  cursor_grab d = negb (cursor_grabbing d) /\
  cursor_grabbing d = match e with
                      | pointerdown => true
                      | _ => false
                      end.
Proof.
  intros d. unfold d. rewrite fold_left_app. simpl.
  destruct e; repeat split.
Qed.

Lemma onDestroy_twice_witness :
  exists w1,
    onDestroy example_env engine_only = Normal tt w1 /\
    is_set (engine w1) = true /\
    is_set (scene w1) = false /\
    is_set (camera w1) = false /\
    handleResize w1 = None /\
    onDestroy example_env w1 = Normal tt w1.
Proof.
  apply (onDestroy_twice example_env engine_only). repeat split.
Defined.

(* ================================================================== *)
(** * The fallback and the framing in terms of the loaded container *)
(* ================================================================== *)

(** X15: when the container's meshes with vertices all collapse to one
    point (their common box has largest extent 0), a successful activation
    creates the pivot but leaves it at scale 1 and position 0, and the camera
    looks at the origin from distance 10 inside the limits [0.1, 1000] of
    lines 56-57, wherever that point is. *)
Theorem degenerate_container_keeps_defaults (env : Env) (url : string)
        (cm : list AbstractMesh) :
  quiet env -> url <> ""%string ->
  LoadAssetContainerAsync env url = Resolves (Some (mkAssetContainer cm)) ->
  existsb hasVertices cm = true ->
  maxDimensionOf (container_box cm) == 0 ->
  exists w' s' pivot cam,
    onMount env (initial url true) = Normal tt w' /\
    scene w' = Some s' /\
    transformNodes s' = [pivot] /\
    scaling pivot = One /\ position pivot = Zero /\
    camera w' = Some cam /\
    target cam = Zero /\ radius cam = 10 /\
    lowerRadiusLimit cam = Some 0.1 /\ upperRadiusLimit cam = Some 1000.
Proof.
  intros Hq Hurl Hload Hex Hzero.
  set (ids := renderable (merged cm) (seq 0 (List.length cm))).
  assert (Hne : ids <> []).
  { intros Hnil. apply renderable_nil_iff in Hnil. congruence. }
  assert (Hcorn : container_corners cm <> []).
  { unfold container_corners. apply existsb_exists in Hex.
    destruct Hex as (m & Hin & Hv).
    assert (Hf : In m (filter hasVertices cm)) by (apply filter_In; now split).
    destruct (filter hasVertices cm) as [|m' l]; [contradiction|]. discriminate. }
  pose proof (container_box_moved cm Hcorn) as Hbox. fold ids in Hbox.
  assert (H1 : 0 < 1) by lra.
  pose proof (maxDimensionOf_moved 1 Zero _ _ H1 Hbox) as Hmax.
  assert (Hn : ~ 0 < maxDimensionOf (preBounds (prepared cm) ids))
    by (rewrite Hmax; lra).
  pose proof (pass_flat env Hq (ready env url cm) (prepared cm) (camera0 env)
                ids eq_refl eq_refl Hne Hn) as Hpass.
  eexists _, (reparented (prepared cm) ids), _, _.
  split; [exact (onMount_quiet env url cm Hq Hload _ Hurl Hpass)|].
  repeat split.
Qed.

Lemma degenerate_container_keeps_defaults_witness :
  exists w' s' pivot cam,
    onMount (serving collapsed_container) (initial "model.glb" true)
    = Normal tt w' /\
    scene w' = Some s' /\
    transformNodes s' = [pivot] /\
    scaling pivot = One /\ position pivot = Zero /\
    camera w' = Some cam /\
    target cam = Zero /\ radius cam = 10 /\
    lowerRadiusLimit cam = Some 0.1 /\ upperRadiusLimit cam = Some 1000.
Proof.
  apply (degenerate_container_keeps_defaults (serving collapsed_container)
           "model.glb"%string collapsed_container).
  - intros st. reflexivity.
  - discriminate.
  - reflexivity.
  - reflexivity.
  - vm_compute. reflexivity.
Defined.

(** The objects behind the indices that line 79 selects are the objects
    with vertices, in the order of the store. *)
Lemma deref_seq {A : Type} (l : list A) :
  forall pre, deref (seq (List.length pre) (List.length l)) (pre ++ l) = l.
Proof.
  unfold deref.
  induction l as [|a l IH]; intros pre; simpl; [reflexivity|].
  rewrite nth_error_app2, Nat.sub_diag by lia. simpl.
  replace (S (List.length pre)) with (List.length (pre ++ [a]))
    by (rewrite length_app; simpl; lia).
  change (pre ++ a :: l) with (pre ++ [a] ++ l). rewrite app_assoc.
  now rewrite IH.
Qed.

Lemma deref_renderable (s : Scene) (store : list AbstractMesh) (ids : list nat) :
  (forall id, option_map hasVertices (nth_error (meshes s) id)
              = option_map hasVertices (nth_error store id)) ->
  deref (renderable s ids) store = filter hasVertices (deref ids store).
Proof.
  intros Hsame. unfold renderable, deref.
  induction ids as [|id ids IH]; simpl; [reflexivity|].
  specialize (Hsame id).
  destruct (nth_error (meshes s) id) as [m|],
           (nth_error store id) as [m'|] eqn:E'; simpl in Hsame;
    try discriminate.
  - injection Hsame as Hv. rewrite Hv.
    destruct (hasVertices m') eqn:Hv'; simpl; rewrite ?E'; simpl;
      rewrite ?Hv'; now rewrite IH.
  - simpl. exact IH.
Qed.

Lemma render_meshes_of_container (cm : list AbstractMesh) :
  deref (renderable (merged cm) (seq 0 (List.length cm)))
        (mapi_from 0 placed_mesh cm)
  = filter hasVertices (mapi_from 0 placed_mesh cm).
Proof.
  rewrite (deref_renderable (merged cm)).
  - f_equal.
    rewrite <- (mapi_from_length placed_mesh cm 0).
    exact (deref_seq (mapi_from 0 placed_mesh cm) []).
  - intros id. simpl. rewrite nth_error_mapi_from.
    destruct (nth_error cm id) as [m0|]; simpl; [|reflexivity].
    unfold hasVertices.
    now destruct (placed_mesh_keeps id m0) as (-> & _).
Qed.

(** X16: in the scaled branch [camera.zoomOn] is called on exactly the
    scene's meshes that have vertices, in container order, with
    [doNotUpdateMaxZ] set, on the camera framed by lines 118-128 (framing
    behaviour off, target at the origin, radius max(postMaxDimension * 1.5, 3),
    which is at least 3); the far plane is then set from the upper radius
    limit [zoomOn] returns. *)
Theorem zoomOn_sees_render_meshes_only (env : Env) (url : string)
        (cm : list AbstractMesh) :
  quiet env -> url <> ""%string ->
  LoadAssetContainerAsync env url = Resolves (Some (mkAssetContainer cm)) ->
  0 < maxDimensionOf (container_box cm) ->
  exists w' s' assigned,
    onMount env (initial url true) = Normal tt w' /\
    scene w' = Some s' /\
    radius assigned
    = Qmax (maxDimensionOf (getHierarchyBoundingVectors s' 0 hasVertices) * 1.5) 3 /\
    3 <= radius assigned /\
    target assigned = Zero /\
    useFramingBehavior assigned = false /\
    camera w'
    = Some (let c' := zoomOn env assigned (filter hasVertices (meshes s')) true in
            set_maxZ (to_number (upperRadiusLimit c') * 5) c').
Proof.
  intros Hq Hurl Hload Hpos.
  set (ids := renderable (merged cm) (seq 0 (List.length cm))).
  assert (Hcorn : container_corners cm <> []).
  { intros Hnil. pose proof maxDimensionOf_no_points as Hneg.
    unfold container_box in Hpos. rewrite Hnil in Hpos. lra. }
  assert (Hne : ids <> []).
  { intros Hnil. apply renderable_nil_iff in Hnil.
    rewrite (container_has_render_mesh cm Hcorn) in Hnil. discriminate. }
  pose proof (container_box_moved cm Hcorn) as Hbox. fold ids in Hbox.
  assert (H1 : 0 < 1) by lra.
  pose proof (maxDimensionOf_moved 1 Zero _ _ H1 Hbox) as Hmax.
  assert (Hm : 0 < maxDimensionOf (preBounds (prepared cm) ids))
    by (rewrite Hmax; lra).
  pose proof (pass_scaled env Hq (ready env url cm) (prepared cm) (camera0 env)
                ids eq_refl eq_refl Hne Hm) as Hpass.
  assert (Hmeshes : meshes (normalized (prepared cm) ids)
                    = mapi_from 0 placed_mesh cm).
  { rewrite meshes_normalized.
    change (meshes (reparented (prepared cm) ids))
      with (forEach (fun _ => setParent 0) ids (meshes (prepared cm))).
    rewrite meshes_prepared. apply reparent_closed_form. }
  eexists _, (normalized (prepared cm) ids),
    (framed (maxDimensionOf (postBounds (prepared cm) ids)) (camera0 env)).
  split; [exact (onMount_quiet env url cm Hq Hload _ Hurl Hpass)|].
  split; [reflexivity|].
  split; [reflexivity|].
  split.
  { cbn [framed radius set_maxZ set_minZ set_upperRadiusLimit
         set_lowerRadiusLimit set_radius].
    apply Q.le_max_r. }
  split; [reflexivity|]. split; [reflexivity|].
  cbn [camera subscribed set_resizeListeners set_handleResize set_camera].
  unfold zoomed. rewrite Hmeshes.
  fold ids. rewrite <- (render_meshes_of_container cm). reflexivity.
Qed.

Lemma zoomOn_sees_render_meshes_only_witness :
  exists w' s' assigned,
    onMount (serving_clip cluttered_container) (initial "model.glb" true)
    = Normal tt w' /\
    scene w' = Some s' /\
    radius assigned
    = Qmax (maxDimensionOf (getHierarchyBoundingVectors s' 0 hasVertices) * 1.5) 3 /\
    3 <= radius assigned /\
    target assigned = Zero /\
    useFramingBehavior assigned = false /\
    camera w'
    = Some (let c' := zoomOn (serving_clip cluttered_container) assigned
                             (filter hasVertices (meshes s')) true in
            set_maxZ (to_number (upperRadiusLimit c') * 5) c').
Proof.
  apply (zoomOn_sees_render_meshes_only (serving_clip cluttered_container)
           "model.glb"%string cluttered_container).
  - intros st. reflexivity.
  - discriminate.
  - reflexivity.
  - vm_compute. reflexivity.
Defined.
